(** * quizyfi: the room session engine of [main.py], embedded in Rocq

    The Python module keeps one process-wide dictionary [rooms] and five
    handlers ([create_room], [join_room], [start_quiz], [submit], [state])
    that read and mutate it.  The embedding keeps the Python object model
    where the handlers depend on it: room dictionaries and the [answers]
    lists of students are objects in a store, addressed by location, so that
    a value that holds a reference to a list sees later appends to it.

    External collaborators are taken as an environment: the wall clock
    ([time.time]), the random source ([random]) and the wikipedia package. *)

From Stdlib Require Import Ascii QArith.
From stdpp Require Import gmap strings list fin_maps sorting.

Local Open Scope Z_scope.

(** ** Python string primitives used by the quiz generator

    Strings are sequences of one-byte characters; the generator only looks
    at text that went through [clean], which leaves letters, digits, full
    stops and single spaces. *)

Module Py.

Definition chars (s : string) : list ascii := String.list_ascii_of_string s.
Definition str (l : list ascii) : string := String.string_of_list_ascii l.

Definition len (s : string) : nat := String.length s.

(** [s[:n]] *)
Definition slice_to (n : nat) (s : string) : string := str (take n (chars s)).

(** [str.split()] with no argument: maximal runs of non-blank characters. *)
Definition split (s : string) : list string := String.words s.

(** [str.split(sep)] for a one-character separator: every occurrence
    cuts, so [n] separators give [n + 1] pieces, empty ones included. *)
Fixpoint split_on_go (sep : ascii) (cur : list ascii) (l : list ascii)
  : list string :=
  match l with
  | [] => [str (reverse cur)]
  | a :: l' =>
      if decide (a = sep) then str (reverse cur) :: split_on_go sep [] l'
      else split_on_go sep (a :: cur) l'
  end.
Definition split_on (sep : ascii) (s : string) : list string :=
  split_on_go sep [] (chars s).

Fixpoint lstrip_go (l : list ascii) : list ascii :=
  match l with
  | a :: l' => if Ascii.is_space a then lstrip_go l' else l
  | [] => []
  end.
(** [str.strip()] *)
Definition strip (s : string) : string :=
  str (reverse (lstrip_go (reverse (lstrip_go (chars s))))).

Fixpoint is_prefix (p l : list ascii) : bool :=
  match p, l with
  | [], _ => true
  | a :: p', b :: l' => bool_decide (a = b) && is_prefix p' l'
  | _ :: _, [] => false
  end.

Fixpoint contains_go (p l : list ascii) : bool :=
  is_prefix p l || match l with [] => false | _ :: l' => contains_go p l' end.
(** [c in s] on strings: [c] occurs as a contiguous substring of [s]. *)
Definition contains (c s : string) : bool := contains_go (chars c) (chars s).

(** [s.replace(old, new)]: every non-overlapping occurrence, scanning
    from the left.  [skip] counts the characters of an occurrence that
    are still to be dropped. *)
Fixpoint replace_go (old new : list ascii) (skip : nat) (l : list ascii)
  : list ascii :=
  match l with
  | [] => []
  | a :: l' =>
      match skip with
      | S k => replace_go old new k l'
      | O =>
          if is_prefix old l
          then new ++ replace_go old new (length old - 1) l'
          else a :: replace_go old new 0 l'
      end
  end.
Definition replace (s old new : string) : string :=
  match chars old with
  | [] => str (chars new ++ flat_map (λ a, a :: chars new) (chars s))
  | o => str (replace_go o (chars new) 0 (chars s))
  end.

(** [c.isupper()] for a single cased character. *)
Definition isupper (a : ascii) : bool :=
  let n := nat_of_ascii a in (65 <=? n)%nat && (n <=? 90)%nat.
Definition islower (a : ascii) : bool :=
  let n := nat_of_ascii a in (97 <=? n)%nat && (n <=? 122)%nat.
Definition isdigit (a : ascii) : bool :=
  let n := nat_of_ascii a in (48 <=? n)%nat && (n <=? 57)%nat.

(** [int(x)] on a float: truncation towards zero. *)
Definition int (x : Q) : Z := Z.quot (Qnum x) (Z.pos (Qden x)).

(** [sum(l)] *)
Definition sum (l : list Z) : Z := foldr Z.add 0 l.

(** [x in l] for a list of strings. *)
Definition mem (x : string) (l : list string) : bool := bool_decide (x ∈ l).

End Py.

(** ** Helpers of [main.py] *)

(** [re.sub(r"\([^)]*\)", "", text)]: an opening parenthesis that has a
    closing one somewhere after it is removed together with everything up
    to the first closing one. *)
Fixpoint drop_parens (inside : bool) (l : list ascii) : list ascii :=
  match l with
  | [] => []
  | a :: l' =>
      if inside then
        if decide (a = ")"%char) then drop_parens false l' else drop_parens true l'
      else if decide (a = "("%char) then
        if bool_decide (")"%char ∈ l') then drop_parens true l'
        else a :: drop_parens false l'
      else a :: drop_parens false l'
  end.

(** [re.sub(r"[^a-zA-Z0-9. ]", " ", text)] *)
Definition keep_char (a : ascii) : bool :=
  Py.islower a || Py.isupper a || Py.isdigit a
  || bool_decide (a = "."%char) || bool_decide (a = " "%char).
Definition blank_others (l : list ascii) : list ascii :=
  (λ a, if keep_char a then a else " "%char) <$> l.

(** [re.sub(r"\s+", " ", text)]: a run of blanks becomes one space. *)
Fixpoint squeeze (prev_blank : bool) (l : list ascii) : list ascii :=
  match l with
  | [] => []
  | a :: l' =>
      if Ascii.is_space a
      then if prev_blank then squeeze true l' else " "%char :: squeeze true l'
      else a :: squeeze false l'
  end.

Definition clean (text : string) : string :=
  Py.strip (Py.str (squeeze false (blank_others (drop_parens false (Py.chars text))))).

(** The environment of the process: the optional wikipedia package, the
    wall clock and the random source.  [page] and [summary] answer [None]
    where the package raises.  The [k]-th call of [time.time()] of the
    process reads [time_time k]; the [k]-th random draw below [n] is
    [randbits k mod n]. *)
Record Env := {
  WIKI : bool;
  page : string → option string;
  summary : string → option string;
  time_time : nat → Q;
  randbits : nat → nat
}.

Definition wiki_text (env : Env) (topic : string) : string :=
  if negb (WIKI env) then ""
  else match page env topic with
       | Some content => Py.slice_to (40 * 1000) content
       | None => match summary env topic with
                 | Some s => s
                 | None => ""
                 end
       end.

Fixpoint collect (p : string → list string → bool) (words concepts : list string)
  : list string :=
  match words with
  | [] => concepts
  | w :: ws => collect p ws (if p w concepts then concepts ++ [w] else concepts)
  end.

Definition extract_concepts (text : string) : list string :=
  let words := Py.split text in
  let capital w concepts :=
    match w with
    | String a _ =>
        Py.isupper a && bool_decide (4 < Py.len w)%nat && negb (Py.mem w concepts)
    | EmptyString => false
    end in
  let long w concepts :=
    bool_decide (7 < Py.len w)%nat && negb (Py.mem w concepts) in
  let concepts := collect capital words [] in
  let concepts :=
    if bool_decide (length concepts < 6)%nat then collect long words concepts
    else concepts in
  take 40 concepts.

(** ** The random source *)

Definition randbelow (env : Env) (k n : nat) : nat := (randbits env k mod n)%nat.

(** [random.choice(l)]; the draw counter moves by one. *)
Definition choice (env : Env) (k : nat) (l : list string) : string * nat :=
  (default "" (l !! randbelow env k (length l)), S k).

(** [random.choices(alphabet, k=n)]: [n] independent draws. *)
Fixpoint choices (env : Env) (k : nat) (alphabet : list ascii) (n : nat)
  : list ascii * nat :=
  match n with
  | O => ([], k)
  | S n' =>
      let a := default "A"%char (alphabet !! randbelow env k (length alphabet)) in
      let '(rest, k') := choices env (S k) alphabet n' in
      (a :: rest, k')
  end.

(** [random.sample(l, n)] for a sample of at most 5 items, as the
    library computes it.  A population of at most 21 items is copied to
    a pool whose first [m] items are the ones not selected yet:

      j = randbelow(n - i); result[i] = pool[j]; pool[j] = pool[n - i - 1]

    A larger population is indexed directly, and a drawn index that was
    selected before is drawn again:

      j = randbelow(n)
      while j in selected: j = randbelow(n)
      selected.add(j); result[i] = population[j]

    One unit of [fuel] pays for one draw of that inner loop. *)
Fixpoint sample_pool (env : Env) (k : nat) (pool : list string) (m n : nat)
  : list string * nat :=
  match n with
  | O => ([], k)
  | S n' =>
      let j := randbelow env k m in
      let picked := default "" (pool !! j) in
      let pool' := <[j := default "" (pool !! (m - 1)%nat)]> pool in
      let '(rest, k') := sample_pool env (S k) pool' (m - 1) n' in
      (picked :: rest, k')
  end.

Fixpoint draw_unselected (env : Env) (fuel k n : nat) (selected : gset nat)
  : option (nat * nat) :=
  match fuel with
  | O => None
  | S fuel' =>
      let j := randbelow env k n in
      if bool_decide (j ∈ selected)
      then draw_unselected env fuel' (S k) n selected
      else Some (j, S k)
  end.

Fixpoint sample_set (env : Env) (fuel k : nat) (l : list string)
    (selected : gset nat) (n : nat) : option (list string * nat) :=
  match n with
  | O => Some ([], k)
  | S n' =>
      match draw_unselected env fuel k (length l) selected with
      | None => None
      | Some (j, k1) =>
          match sample_set env fuel k1 l ({[j]} ∪ selected) n' with
          | None => None
          | Some (rest, k') => Some (default "" (l !! j) :: rest, k')
          end
      end
  end.

Definition sample (env : Env) (fuel k : nat) (l : list string) (n : nat)
  : option (list string * nat) :=
  if bool_decide (length l ≤ 21)%nat
  then Some (sample_pool env k l (length l) n)
  else sample_set env fuel k l ∅ n.

(** [random.shuffle(l)]: for [i] from the last index down to 1, swap
    position [i] with a drawn position [j <= i]. *)
Fixpoint shuffle_go (env : Env) (k i : nat) (l : list string) : list string * nat :=
  match i with
  | O => (l, k)
  | S i' =>
      let j := randbelow env k (S i) in
      let xi := default "" (l !! i) in
      let xj := default "" (l !! j) in
      shuffle_go env (S k) i' (<[i := xj]> (<[j := xi]> l))
  end.
Definition shuffle (env : Env) (k : nat) (l : list string) : list string * nat :=
  shuffle_go env k (length l - 1) l.

(** ** The quiz generator *)

Record Question := { q : string; options : list string; answer : string }.

Definition fallback_sentences (topic : string) : list string :=
  [ topic +:+ " is an important concept in computer science";
    topic +:+ " is widely used in modern systems";
    topic +:+ " plays a major role in engineering";
    topic +:+ " is studied extensively in academia" ].

Definition fallback_concepts : list string :=
  ["Algorithm"; "Model"; "System"; "Data"; "Process"].

Definition sentences_of (topic text : string) : list string :=
  let found :=
    Py.strip <$>
      filter (λ s, 8 ≤ length (Py.split s) ≤ 25)%nat (Py.split_on "."%char text) in
  match found with
  | [] => fallback_sentences topic
  | _ => found
  end.

Definition concepts_of (text : string) : list string :=
  let concepts := extract_concepts text in
  if bool_decide (length concepts < 4)%nat then fallback_concepts else concepts.

(** [[c for c in concepts if c in s and c not in used]] *)
Definition valid_concepts (s : string) (used : gset string)
    (concepts : list string) : list string :=
  filter (λ c, Py.contains c s = true ∧ c ∉ used) concepts.

(** The [while len(quiz) < count] loop.  One unit of [fuel] pays for one
    evaluation of the loop test, and what is left of it bounds the
    redraws of the sample of that turn; [None] means the fuel ran out
    with the loop still running.  [k] counts the random draws made so
    far. *)
Fixpoint mcq_loop (env : Env) (fuel : nat) (sentences concepts : list string)
    (count : Z) (quiz : list Question) (used : gset string) (k : nat)
  : option (list Question * nat) :=
  match fuel with
  | O => None
  | S fuel' =>
      if bool_decide (Z.of_nat (length quiz) < count) then
        let '(s, k1) := choice env k sentences in
        match valid_concepts s used concepts with
        | [] => mcq_loop env fuel' sentences concepts count quiz used k1
        | ans :: _ =>
            let used' := {[ans]} ∪ used in
            let distractors := filter (λ c, c ≠ ans) concepts in
            if bool_decide (length distractors < 3)%nat then
              mcq_loop env fuel' sentences concepts count quiz used' k1
            else
              match sample env fuel' k1 distractors 3 with
              | None => None
              | Some (picked, k2) =>
                  let '(opts, k3) := shuffle env k2 (picked ++ [ans]) in
                  let question :=
                    {| q := Py.replace s ans "_____" +:+ "?";
                       options := opts;
                       answer := ans |} in
                  mcq_loop env fuel' sentences concepts count
                    (quiz ++ [question]) used' k3
              end
        end
      else Some (quiz, k)
  end.

Definition generate_mcqs (env : Env) (fuel : nat) (k : nat) (topic : string)
    (count : Z) : option (list Question * nat) :=
  let text := clean (wiki_text env topic) in
  mcq_loop env fuel (sentences_of topic text) (concepts_of text) count [] ∅ k.

(** ** Data model

    [rooms] maps a room code to the location of a room dictionary in
    [room_store]; the [answers] field of a student is the location of a
    list object in [list_store].  [times] is only ever read through the
    student, so it is kept by value.  [students] is an insertion-ordered
    dictionary: an association list in insertion order with distinct keys.
    [current] starts at 0 and is only ever incremented, so it is a [nat]. *)

Record AnswerRecord := {
  question : string;
  selected : option string;
  correct : string;
  is_correct : bool
}.

Record Student := {
  score : Z;
  answered : bool;
  times : list Z;
  answers : nat;
  q_start : option Q
}.

Record Room := {
  quiz : list Question;
  students : list (string * Student);
  current : nat;
  started : bool;
  ended : bool;
  duration : Z;
  start_time : option Q
}.

Record World := {
  rooms : gmap string nat;
  room_store : list Room;
  list_store : list (list AnswerRecord);
  clock : nat;
  rng : nat
}.

Definition boot : World :=
  {| rooms := ∅; room_store := []; list_store := []; clock := 0; rng := 0 |}.

(** One entry of the leaderboard that [state] builds.  [total_time] is a
    number computed when the entry is built; [answers] is the student's
    list object itself. *)
Module Entry.
Record t := { name : string; score : Z; total_time : Z; answers : nat }.
End Entry.

Inductive Response :=
| RError (msg : string)
| RRoom (code : string)
| ROk
| RWaiting (names : list string)
| RActive (question : string) (options : list string) (remaining : Z)
          (qno total : nat) (leaderboard : list Entry.t)
| REnded (leaderboard : list Entry.t).

Inductive Exn := IndexError | TypeError.

Inductive Outcome :=
| Return (r : Response)
| Raise (e : Exn).

(** *** Dictionary and store access *)

Fixpoint dict_get (name : string) (d : list (string * Student)) : option Student :=
  match d with
  | [] => None
  | (n, s) :: d' => if decide (n = name) then Some s else dict_get name d'
  end.

(** [d[name] = s]: an existing key keeps its position, a new one goes last. *)
Fixpoint dict_set (name : string) (s : Student) (d : list (string * Student))
  : list (string * Student) :=
  match d with
  | [] => [(name, s)]
  | (n, s0) :: d' =>
      if decide (n = name) then (n, s) :: d' else (n, s0) :: dict_set name s d'
  end.

(** [rooms.get(code)]: the room object bound to [code], with its location. *)
Definition get_room (w : World) (code : string) : option (nat * Room) :=
  ρ ← rooms w !! code; r ← room_store w !! ρ; Some (ρ, r).

Definition set_room (ρ : nat) (r : Room) (w : World) : World :=
  {| rooms := rooms w; room_store := <[ρ := r]> (room_store w);
     list_store := list_store w; clock := clock w; rng := rng w |}.

Definition set_lists (h : list (list AnswerRecord)) (w : World) : World :=
  {| rooms := rooms w; room_store := room_store w;
     list_store := h; clock := clock w; rng := rng w |}.

Definition set_clock (k : nat) (w : World) : World :=
  {| rooms := rooms w; room_store := room_store w;
     list_store := list_store w; clock := k; rng := rng w |}.

(** [l.append(x)] on the list object at location [a]. *)
Definition append_at (a : nat) (x : AnswerRecord) (h : list (list AnswerRecord))
  : list (list AnswerRecord) :=
  alter (λ l, l ++ [x]) a h.

(** The answer history a response shows for a list reference, read when
    the response is serialised, that is in the world the handler leaves. *)
Definition deref (w : World) (a : nat) : list AnswerRecord :=
  default [] (list_store w !! a).

(** ** Handlers *)

Definition alphabet : list ascii := Py.chars "ABCDEFGHJKMNPQRSTUVWXYZ23456789".

Definition create_room (env : Env) (fuel : nat) (topic : string) (count : Z)
    (w : World) : option (Outcome * World) :=
  let '(code_chars, k1) := choices env (rng w) alphabet 5 in
  let code := Py.str code_chars in
  match generate_mcqs env fuel k1 topic count with
  | None => None
  | Some (quiz0, k2) =>
      let room :=
        {| quiz := quiz0; students := []; current := 0; started := false;
           ended := false; duration := 30; start_time := None |} in
      Some (Return (RRoom code),
            {| rooms := <[code := length (room_store w)]> (rooms w);
               room_store := room_store w ++ [room];
               list_store := list_store w; clock := clock w; rng := k2 |})
  end.

Definition join_room (room name : string) (w : World) : Outcome * World :=
  match get_room w room with
  | None => (Return (RError "Invalid room"), w)
  | Some (ρ, r) =>
      let s :=
        {| score := 0; answered := false; times := [];
           answers := length (list_store w); q_start := None |} in
      let r' :=
        {| quiz := quiz r; students := dict_set name s (students r);
           current := current r; started := started r; ended := ended r;
           duration := duration r; start_time := start_time r |} in
      (Return ROk, set_room ρ r' (set_lists (list_store w ++ [[]]) w))
  end.

(** [for s in r["students"].values(): s["q_start"] = time.time()] *)
Fixpoint stamp (env : Env) (k : nat) (d : list (string * Student))
  : list (string * Student) * nat :=
  match d with
  | [] => ([], k)
  | (n, s) :: d' =>
      let s' :=
        {| score := score s; answered := answered s; times := times s;
           answers := answers s; q_start := Some (time_time env k) |} in
      let '(d'', k') := stamp env (S k) d' in
      ((n, s') :: d'', k')
  end.

Definition start_quiz (env : Env) (room : string) (w : World) : Outcome * World :=
  match get_room w room with
  | None => (Return (RError "Invalid room"), w)
  | Some (ρ, r) =>
      let t0 := time_time env (clock w) in
      let '(d, k) := stamp env (S (clock w)) (students r) in
      let r' :=
        {| quiz := quiz r; students := d; current := current r;
           started := true; ended := ended r; duration := duration r;
           start_time := Some t0 |} in
      (Return ROk, set_clock k (set_room ρ r' w))
  end.

Definition submit (env : Env) (room name : string) (ans : option string)
    (w : World) : Outcome * World :=
  match get_room w room with
  | None => (Return (RError "Invalid submission"), w)
  | Some (ρ, r) =>
      match dict_get name (students r) with
      | None => (Return (RError "Invalid submission"), w)
      | Some s =>
          if answered s then (Return ROk, w)
          else
            match quiz r !! current r with
            | None => (Raise IndexError, w)
            | Some qu =>
                let now := time_time env (clock w) in
                let w1 := set_clock (S (clock w)) w in
                match q_start s with
                | None => (Raise TypeError, w1)
                | Some t =>
                    let elapsed := Py.int (now - t) in
                    let hit := bool_decide (ans = Some (answer qu)) in
                    let record :=
                      {| question := q qu; selected := ans;
                         correct := answer qu; is_correct := hit |} in
                    let s' :=
                      {| score := if hit then score s + 1 else score s;
                         answered := true;
                         times := times s ++ [elapsed];
                         answers := answers s;
                         q_start := q_start s |} in
                    let r' :=
                      {| quiz := quiz r;
                         students := dict_set name s' (students r);
                         current := current r; started := started r;
                         ended := ended r; duration := duration r;
                         start_time := start_time r |} in
                    (Return ROk,
                     set_room ρ r'
                       (set_lists (append_at (answers s) record (list_store w)) w1))
                end
            end
      end
  end.

(** *** The leaderboard *)

Definition entry (ns : string * Student) : Entry.t :=
  {| Entry.name := ns.1; Entry.score := score ns.2;
     Entry.total_time := Py.sum (times ns.2); Entry.answers := answers ns.2 |}.

(** [key=lambda x: (-x["score"], x["total_time"])], compared as tuples. *)
Definition key (e : Entry.t) : Z * Z := (- Entry.score e, Entry.total_time e).

Definition tuple_lt (a b : Z * Z) : bool :=
  (a.1 <? b.1) || ((a.1 =? b.1) && (a.2 <? b.2)).

(** [sorted(l, key=key)].  Python's sort is stable and compares keys with
    [<] only; the result is the one list that is ordered by key and keeps
    entries of equal key in their order in [l].  It is computed here by
    insertion from the right, an entry going in front of the first entry
    whose key is not smaller. *)
Fixpoint insert_entry (x : Entry.t) (l : list Entry.t) : list Entry.t :=
  match l with
  | [] => [x]
  | y :: l' =>
      if tuple_lt (key y) (key x) then y :: insert_entry x l' else x :: y :: l'
  end.
Definition sorted (l : list Entry.t) : list Entry.t := foldr insert_entry [] l.

Definition timeout_record (qu : Question) : AnswerRecord :=
  {| question := q qu; selected := None; correct := answer qu; is_correct := false |}.

(** The loop over the students of an expired question: a student who has
    not answered gets [duration] and a record without selection appended;
    every student has [answered] cleared and [q_start] stamped. *)
Fixpoint expire (env : Env) (qu : Question) (dur : Z) (d : list (string * Student))
    (h : list (list AnswerRecord)) (k : nat)
  : list (string * Student) * list (list AnswerRecord) * nat :=
  match d with
  | [] => ([], h, k)
  | (n, s) :: d' =>
      let '(ts, h1) :=
        if answered s then (times s, h)
        else (times s ++ [dur], append_at (answers s) (timeout_record qu) h) in
      let s' :=
        {| score := score s; answered := false; times := ts;
           answers := answers s; q_start := Some (time_time env k) |} in
      let '(d'', h2, k') := expire env qu dur d' h1 (S k) in
      ((n, s') :: d'', h2, k')
  end.

(** The last statements of [state], shared by the two paths that reach
    them: read the active question and assemble the ACTIVE snapshot. *)
Definition active_snapshot (r : Room) (remaining : Z) (leaderboard : list Entry.t)
    (w : World) : Outcome * World :=
  match quiz r !! current r with
  | None => (Raise IndexError, w)
  | Some qu =>
      (Return (RActive (q qu) (options qu) remaining (current r + 1)
                 (length (quiz r)) leaderboard), w)
  end.

Definition state (env : Env) (room : string) (w : World) : Outcome * World :=
  match get_room w room with
  | None => (Return (RError "Invalid room"), w)
  | Some (ρ, r) =>
      let leaderboard := sorted (entry <$> students r) in
      if ended r then (Return (REnded leaderboard), w)
      else if negb (started r) then (Return (RWaiting ((students r).*1)), w)
      else
        let now := time_time env (clock w) in
        let w1 := set_clock (S (clock w)) w in
        match start_time r with
        | None => (Raise TypeError, w1)
        | Some t0 =>
            let elapsed := Py.int (now - t0) in
            let remaining := duration r - elapsed in
            if bool_decide (remaining ≤ 0) then
              match quiz r !! current r with
              | None => (Raise IndexError, w1)
              | Some qu =>
                  let '(d, h, k) :=
                    expire env qu (duration r) (students r) (list_store w)
                      (S (clock w)) in
                  let cur := S (current r) in
                  let r1 ended' start' :=
                    {| quiz := quiz r; students := d; current := cur;
                       started := started r; ended := ended';
                       duration := duration r; start_time := start' |} in
                  if bool_decide (length (quiz r) ≤ cur)%nat then
                    (Return (REnded leaderboard),
                     set_room ρ (r1 true (start_time r))
                       (set_lists h (set_clock k w)))
                  else
                    let r2 := r1 (ended r) (Some (time_time env k)) in
                    active_snapshot r2 (duration r) leaderboard
                      (set_room ρ r2 (set_lists h (set_clock (S k) w)))
              end
            else active_snapshot r remaining leaderboard w1
        end
  end.

(** * Properties *)

(** ** The order of the leaderboard *)

(** [a] may stand in front of [b]: the key of [b] is not smaller. *)
Definition key_le (a b : Entry.t) : Prop := tuple_lt (key b) (key a) = false.

Lemma tuple_lt_spec a b :
  tuple_lt a b = true ↔ a.1 < b.1 ∨ (a.1 = b.1 ∧ a.2 < b.2).
Proof.
  unfold tuple_lt.
  rewrite orb_true_iff, andb_true_iff, !Z.ltb_lt, Z.eqb_eq. tauto.
Qed.

Lemma tuple_lt_false a b :
  tuple_lt a b = false ↔ b.1 < a.1 ∨ (a.1 = b.1 ∧ b.2 ≤ a.2).
Proof.
  rewrite <- not_true_iff_false, tuple_lt_spec. lia.
Qed.

Lemma key_le_trans a b c : key_le a b → key_le b c → key_le a c.
Proof. unfold key_le. rewrite !tuple_lt_false. lia. Qed.

Lemma key_lt_le a b : tuple_lt (key a) (key b) = true → key_le a b.
Proof. unfold key_le. rewrite tuple_lt_spec, tuple_lt_false. lia. Qed.

Lemma insert_entry_perm x l : insert_entry x l ≡ₚ x :: l.
Proof.
  induction l as [|y l IH]; simpl; [done|].
  destruct (tuple_lt (key y) (key x)); [|done].
  rewrite IH. apply Permutation_swap.
Qed.

Lemma sorted_perm l : sorted l ≡ₚ l.
Proof.
  induction l as [|x l IH]; simpl; [done|].
  by rewrite insert_entry_perm, IH.
Qed.

Lemma insert_entry_ordered x l :
  StronglySorted key_le l → StronglySorted key_le (insert_entry x l).
Proof.
  induction 1 as [|y l Hl IH Hy]; simpl.
  { repeat constructor. }
  destruct (tuple_lt (key y) (key x)) eqn:Hyx.
  - constructor; [done|].
    rewrite insert_entry_perm. constructor; [by apply key_lt_le | done].
  - constructor; [by constructor|].
    constructor; [done|].
    eapply Forall_impl; [exact Hy|]. intros z Hz. by eapply key_le_trans.
Qed.

Lemma sorted_ordered l : StronglySorted key_le (sorted l).
Proof.
  induction l as [|x l IH]; simpl; [constructor|].
  by apply insert_entry_ordered.
Qed.

(** Stability: entries with one and the same key keep their order. *)
Lemma insert_entry_stable k x l :
  filter (λ e, key e = k) (insert_entry x l) = filter (λ e, key e = k) (x :: l).
Proof.
  induction l as [|y l IH]; simpl; [done|].
  destruct (tuple_lt (key y) (key x)) eqn:Hyx; [|done].
  rewrite (filter_cons _ y), IH, !filter_cons.
  destruct (decide (key y = k)) as [Hy|]; [|done].
  destruct (decide (key x = k)) as [Hx|]; [|done].
  rewrite <- Hx in Hy. rewrite Hy in Hyx.
  apply tuple_lt_spec in Hyx. lia.
Qed.

Lemma sorted_stable k l :
  filter (λ e, key e = k) (sorted l) = filter (λ e, key e = k) l.
Proof.
  induction l as [|x l IH]; simpl; [done|].
  by rewrite insert_entry_stable, !filter_cons, IH.
Qed.

(** In a list ordered by key, an entry that must come first does. *)
Lemma ordered_rank l i j a b :
  StronglySorted key_le l →
  l !! i = Some a → l !! j = Some b →
  tuple_lt (key a) (key b) = true →
  (i < j)%nat.
Proof.
  intros Hl. revert i j. induction Hl as [|x l Hl IH Hx]; intros i j Hi Hj Hab.
  { by rewrite lookup_nil in Hi. }
  destruct i as [|i], j as [|j]; simplify_eq/=.
  - apply tuple_lt_spec in Hab. lia.
  - lia.
  - rewrite Forall_forall in Hx.
    assert (key_le b a) as Hba by (apply Hx; by eapply list_elem_of_lookup_2).
    unfold key_le in Hba. congruence.
  - apply (IH i j) in Hab; [lia|done..].
Qed.

Definition leaderboard_of (resp : Response) : option (list Entry.t) :=
  match resp with
  | RActive _ _ _ _ _ board | REnded board => Some board
  | _ => None
  end.

(** Every leaderboard that [state] returns is the sorted list of the
    entries of the students of the room as the call found them. *)
Lemma state_board env room w resp w' board :
  state env room w = (Return resp, w') →
  leaderboard_of resp = Some board →
  ∃ ρ r, get_room w room = Some (ρ, r) ∧ board = sorted (entry <$> students r).
Proof.
  unfold state, active_snapshot. intros Hst Hb.
  destruct (get_room w room) as [[ρ r]|] eqn:Hr; [|by simplify_eq/=].
  exists ρ, r. split; [done|].
  repeat case_match; simplify_eq/=; done.
Qed.

(** ** Well-formed stores

    The [times] of a student and the [answers] list it points to have the
    same length.  The handlers keep this because no two students share
    an [answers] list: [join_room] allocates a new one for each record. *)

Definition studs (r : Room) : list Student := (students r).*2.

Definition all_students (rs : list Room) : list Student := rs ≫= studs.

Definition aligned (h : list (list AnswerRecord)) (s : Student) : Prop :=
  ∃ l, h !! answers s = Some l ∧ length (times s) = length l.

Record inv (w : World) : Prop := {
  inv_sep : NoDup (answers <$> all_students (room_store w));
  inv_aligned : Forall (aligned (list_store w)) (all_students (room_store w))
}.

Lemma all_students_insert rs ρ r :
  rs !! ρ = Some r →
  ∃ pre post,
    all_students rs = pre ++ studs r ++ post ∧
    ∀ r', all_students (<[ρ := r']> rs) = pre ++ studs r' ++ post.
Proof.
  intros Hρ.
  exists (all_students (take ρ rs)), (all_students (drop (S ρ) rs)).
  unfold all_students. split.
  - rewrite <- (take_drop_middle rs ρ r Hρ) at 1.
    by rewrite bind_app, bind_cons.
  - intros r'. rewrite insert_take_drop by (by eapply lookup_lt_Some).
    by rewrite bind_app, bind_cons.
Qed.

Lemma aligned_frame h h' s :
  h' !! answers s = h !! answers s → aligned h s → aligned h' s.
Proof. intros Heq (l & Hl & Hlen). exists l. by rewrite Heq. Qed.

(** Replacing the students [old] of one room by [new], which hold the same
    list objects, while the store changes only at those objects. *)
Lemma inv_frame pre post old new h h' :
  NoDup (answers <$> (pre ++ old ++ post)) →
  Forall (aligned h) (pre ++ old ++ post) →
  answers <$> new = answers <$> old →
  (∀ a, a ∉ answers <$> old → h' !! a = h !! a) →
  Forall (aligned h') new →
  NoDup (answers <$> (pre ++ new ++ post))
  ∧ Forall (aligned h') (pre ++ new ++ post).
Proof.
  intros Hnd Hal Hsame Hframe Hnew. split.
  { by rewrite !fmap_app, Hsame, <- !fmap_app. }
  rewrite !fmap_app in Hnd.
  apply NoDup_app in Hnd as (_ & Hpre & Hnd).
  apply NoDup_app in Hnd as (_ & Hpost & _).
  rewrite !Forall_app in Hal. destruct Hal as (Hal1 & _ & Hal3).
  rewrite !Forall_app. split_and!; [|done|].
  - rewrite Forall_forall in Hal1 |- *. intros s Hs.
    eapply aligned_frame; [|by apply Hal1].
    apply Hframe. intros Hin. eapply Hpre; [by apply list_elem_of_fmap_2|].
    apply elem_of_app; by left.
  - rewrite Forall_forall in Hal3 |- *. intros s Hs.
    eapply aligned_frame; [|by apply Hal3].
    apply Hframe. intros Hin. eapply Hpost; [done|by apply list_elem_of_fmap_2].
Qed.

Lemma dict_get_split name s d :
  dict_get name d = Some s →
  ∃ d1 d2, d.*2 = d1 ++ s :: d2 ∧
    ∀ s', (dict_set name s' d).*2 = d1 ++ s' :: d2.
Proof.
  induction d as [|[n s0] d IH]; [done|].
  cbn [dict_get dict_set].
  destruct (decide (n = name)) as [->|Hne]; intros Hget.
  - simplify_eq. by exists [], d.*2.
  - destruct (IH Hget) as (d1 & d2 & Hd & Hset).
    exists (s0 :: d1), d2. split; [by rewrite fmap_cons, Hd|].
    intros s'. by rewrite fmap_cons, Hset.
Qed.

Lemma dict_set_fresh name s d :
  dict_get name d = None → (dict_set name s d).*2 = d.*2 ++ [s].
Proof.
  induction d as [|[n s0] d IH]; [done|].
  cbn [dict_get dict_set].
  destruct (decide (n = name)); [done|].
  intros Hget. by rewrite !fmap_cons, IH.
Qed.

Lemma append_at_other a b x h : a ≠ b → append_at a x h !! b = h !! b.
Proof. intros. unfold append_at. by apply list_lookup_alter_ne. Qed.

Lemma append_at_same a x h l :
  h !! a = Some l → append_at a x h !! a = Some (l ++ [x]).
Proof. intros Hl. unfold append_at. by rewrite list_lookup_alter_eq, Hl. Qed.

Lemma stamp_spec env k d d' k' :
  stamp env k d = (d', k') →
  d'.*1 = d.*1
  ∧ answers <$> d'.*2 = answers <$> d.*2
  ∧ times <$> d'.*2 = times <$> d.*2.
Proof.
  revert k d' k'. induction d as [|[n s] d IH]; intros k d' k' Hst.
  { by simplify_eq/=. }
  cbn [stamp] in Hst.
  destruct (stamp env (S k) d) as [d0 k0] eqn:Hd. simplify_eq.
  destruct (IH _ _ _ Hd) as (H1 & H2 & H3).
  rewrite !fmap_cons. simpl. by rewrite H1, H2, H3.
Qed.

Lemma aligned_same h s s' :
  answers s' = answers s → times s' = times s → aligned h s → aligned h s'.
Proof. intros Ha Ht (l & Hl & Hlen). exists l. by rewrite Ha, Ht. Qed.

Lemma stamp_aligned env k d d' k' h :
  stamp env k d = (d', k') →
  Forall (aligned h) d.*2 → Forall (aligned h) d'.*2.
Proof.
  revert k d' k'. induction d as [|[n s] d IH]; intros k d' k' Hst Hal.
  { simplify_eq/=. constructor. }
  cbn [stamp] in Hst.
  destruct (stamp env (S k) d) as [d0 k0] eqn:Hd. simplify_eq.
  rewrite fmap_cons in Hal |- *. apply Forall_cons in Hal as [Hs Hal].
  constructor; [|by eapply IH].
  by eapply aligned_same; [..|exact Hs].
Qed.

(** The expiry loop touches only the list objects of the students it
    walks over, keeps every student with its list, and leaves each
    student aligned. *)
Lemma expire_spec env qu dur d h k d' h' k' :
  expire env qu dur d h k = (d', h', k') →
  NoDup (answers <$> d.*2) →
  Forall (aligned h) d.*2 →
  d'.*1 = d.*1
  ∧ answers <$> d'.*2 = answers <$> d.*2
  ∧ (∀ a, a ∉ answers <$> d.*2 → h' !! a = h !! a)
  ∧ Forall (aligned h') d'.*2.
Proof.
  revert h k d' h' k'.
  induction d as [|[n s] d IH]; intros h k d' h' k' Hex Hnd Hal.
  { simplify_eq/=. split_and!; [done..|constructor]. }
  cbn [expire] in Hex. rewrite !fmap_cons in Hnd, Hal. simpl in Hnd, Hal.
  apply NoDup_cons in Hnd as [Hs Hnd].
  apply Forall_cons in Hal as [(l & Hl & Hlen) Hal].
  set (h1 := if answered s then h
             else append_at (answers s) (timeout_record qu) h) in *.
  assert (∀ a, a ≠ answers s → h1 !! a = h !! a) as Hh1.
  { intros a Ha. unfold h1. destruct (answered s); [done|].
    by apply append_at_other. }
  assert (Forall (aligned h1) d.*2) as Hal1.
  { rewrite Forall_forall in Hal |- *. intros s0 Hs0.
    eapply aligned_frame; [|by apply Hal].
    apply Hh1. intros Heq. apply Hs. rewrite <- Heq.
    by apply list_elem_of_fmap_2. }
  destruct (answered s) eqn:Hans;
    destruct (expire env qu dur d h1 (S k)) as [[d0 h0] k0] eqn:Hd;
    subst h1; rewrite Hd in Hex; simplify_eq;
    destruct (IH _ _ _ _ _ Hd Hnd Hal1) as (H1 & H2 & H3 & H4);
    rewrite !fmap_cons; simpl; rewrite H1, H2.
  - split_and!; [done..| |].
    + intros a Ha. apply not_elem_of_cons in Ha as [Ha1 Ha2].
      by rewrite H3.
    + constructor; [|done]. exists l. simpl. by rewrite H3.
  - split_and!; [done..| |].
    + intros a Ha. apply not_elem_of_cons in Ha as [Ha1 Ha2].
      rewrite H3 by done. by apply append_at_other.
    + constructor; [|done]. exists (l ++ [timeout_record qu]). simpl.
      rewrite H3 by done. split; [by apply append_at_same|].
      rewrite !length_app. simpl. lia.
Qed.

Lemma get_room_Some w code ρ r :
  get_room w code = Some (ρ, r) →
  rooms w !! code = Some ρ ∧ room_store w !! ρ = Some r.
Proof.
  unfold get_room. intros H.
  destruct (rooms w !! code) as [ρ'|]; simplify_eq/=.
  destruct (room_store w !! ρ') as [r'|] eqn:Hr; by simplify_eq/=.
Qed.

Lemma aligned_lt h s : aligned h s → (answers s < length h)%nat.
Proof. intros (l & Hl & _). by eapply lookup_lt_Some. Qed.

(** A record with a newly allocated empty list joins students that all
    stem from the old population. *)
Lemma inv_alloc new olds extra rest s h :
  new ≡ₚ s :: rest →
  olds ≡ₚ extra ++ rest →
  NoDup (answers <$> olds) →
  Forall (aligned h) olds →
  answers s = length h → times s = [] →
  NoDup (answers <$> new) ∧ Forall (aligned (h ++ [[]])) new.
Proof.
  intros Hnew Holds Hnd Hal Hs Ht.
  rewrite Holds in Hnd, Hal. rewrite fmap_app in Hnd.
  apply NoDup_app in Hnd as (_ & _ & Hnd).
  apply Forall_app in Hal as [_ Hal].
  rewrite Hnew, fmap_cons. split.
  - apply NoDup_cons. split; [|done].
    intros (s0 & Heq & Hin)%list_elem_of_fmap.
    rewrite Forall_forall in Hal. apply Hal, aligned_lt in Hin. lia.
  - constructor.
    + exists []. rewrite Hs, Ht. split; [|done].
      by rewrite lookup_app_r, Nat.sub_diag by lia.
    + eapply Forall_impl; [exact Hal|]. intros s0 Hs0.
      eapply aligned_frame; [|done].
      apply lookup_app_l. by apply aligned_lt.
Qed.

Lemma join_room_inv room name w : inv w → inv (join_room room name w).2.
Proof.
  intros [Hnd Hal]. unfold join_room.
  destruct (get_room w room) as [[ρ r]|] eqn:Hr; [|by split].
  apply get_room_Some in Hr as [_ Hρ]. simpl.
  set (s := {| score := 0; answered := false; times := [];
               answers := length (list_store w); q_start := None |}).
  set (r' := {| quiz := quiz r; students := dict_set name s (students r);
                current := current r; started := started r; ended := ended r;
                duration := duration r; start_time := start_time r |}).
  destruct (all_students_insert _ _ _ Hρ) as (pre & post & Hall & Hall').
  rewrite Hall in Hnd, Hal.
  enough (NoDup (answers <$> all_students (<[ρ:=r']> (room_store w)))
          ∧ Forall (aligned (list_store w ++ [[]]))
              (all_students (<[ρ:=r']> (room_store w)))) as [??] by by split.
  rewrite Hall'. unfold studs in *. simpl.
  destruct (dict_get name (students r)) as [s0|] eqn:Hget.
  - destruct (dict_get_split _ _ _ Hget) as (d1 & d2 & Hd & Hset).
    rewrite Hset. rewrite Hd in Hnd, Hal.
    eapply (inv_alloc _ (pre ++ (d1 ++ s0 :: d2) ++ post) [s0]
              (pre ++ d1 ++ d2 ++ post) s); [| |done..].
    + rewrite <- !app_assoc. simpl. by rewrite <- !Permutation_middle.
    + rewrite <- !app_assoc. simpl. by rewrite <- !Permutation_middle.
  - rewrite dict_set_fresh by done.
    eapply (inv_alloc _ (pre ++ (students r).*2 ++ post) []
              (pre ++ (students r).*2 ++ post) s); [|done..].
    rewrite <- !app_assoc. simpl. by rewrite <- !Permutation_middle.
Qed.

Lemma inv_room_sep pre post old :
  NoDup (answers <$> (pre ++ old ++ post)) → NoDup (answers <$> old).
Proof.
  rewrite !fmap_app. intros (_ & _ & H)%NoDup_app.
  by apply NoDup_app in H as (? & _ & _).
Qed.

Lemma inv_room_aligned h pre post old :
  Forall (aligned h) (pre ++ old ++ post) → Forall (aligned h) old.
Proof. rewrite !Forall_app. tauto. Qed.

Lemma start_quiz_inv env room w : inv w → inv (start_quiz env room w).2.
Proof.
  intros [Hnd Hal]. unfold start_quiz.
  destruct (get_room w room) as [[ρ r]|] eqn:Hr; [|by split].
  apply get_room_Some in Hr as [_ Hρ].
  destruct (stamp env (S (clock w)) (students r)) as [d k] eqn:Hst. simpl.
  set (r' := {| quiz := quiz r; students := d; current := current r;
                started := true; ended := ended r; duration := duration r;
                start_time := Some (time_time env (clock w)) |}).
  destruct (all_students_insert _ _ _ Hρ) as (pre & post & Hall & Hall').
  rewrite Hall in Hnd, Hal.
  destruct (stamp_spec _ _ _ _ _ Hst) as (_ & Hsame & _).
  destruct (inv_frame pre post (studs r) (studs r')
              (list_store w) (list_store w)) as [??]; [done..| |].
  { eapply stamp_aligned; [done|]. by eapply inv_room_aligned. }
  split; simpl; by rewrite Hall'.
Qed.

Lemma submit_inv env room name ans w : inv w → inv (submit env room name ans w).2.
Proof.
  intros [Hnd Hal]. unfold submit.
  destruct (get_room w room) as [[ρ r]|] eqn:Hr; [|by split].
  apply get_room_Some in Hr as [_ Hρ].
  destruct (dict_get name (students r)) as [s|] eqn:Hget; [|by split].
  destruct (answered s); [by split|].
  destruct (quiz r !! current r) as [qu|]; [|by split].
  destruct (q_start s) as [t|] eqn:Hq; [|by split].
  simpl.
  set (record := {| question := q qu; selected := ans; correct := answer qu;
                    is_correct := bool_decide (ans = Some (answer qu)) |}).
  set (s' := Build_Student _ _ _ _ _).
  set (r' := Build_Room _ _ _ _ _ _ _).
  destruct (all_students_insert _ _ _ Hρ) as (pre & post & Hall & Hall').
  rewrite Hall in Hnd, Hal.
  destruct (dict_get_split _ _ _ Hget) as (d1 & d2 & Hd & Hset).
  pose proof (inv_room_sep _ _ _ Hnd) as Hnd'.
  pose proof (inv_room_aligned _ _ _ _ Hal) as Hal'.
  unfold studs in Hnd', Hal'. rewrite Hd in Hnd', Hal'.
  rewrite fmap_app, fmap_cons in Hnd'.
  apply NoDup_app in Hnd' as (_ & Hd1 & [Hd2 _]%NoDup_cons).
  apply Forall_app in Hal' as [Hal1 [(l & Hl & Hlen) Hal2]%Forall_cons].
  destruct (inv_frame pre post (studs r) (studs r') (list_store w)
              (append_at (answers s) record (list_store w))) as [??]; [done..| | | |].
  - unfold studs. simpl. by rewrite Hset, Hd, !fmap_app, !fmap_cons.
  - intros a Ha. apply append_at_other. intros <-. apply Ha.
    unfold studs. rewrite Hd, fmap_app, fmap_cons. set_solver.
  - unfold studs. simpl. rewrite Hset. apply Forall_app. split.
    + rewrite Forall_forall in Hal1 |- *. intros s0 Hs0.
      eapply aligned_frame; [|by apply Hal1].
      apply append_at_other. intros Heq.
      eapply Hd1; [by apply list_elem_of_fmap_2|]. rewrite <- Heq. set_solver.
    + constructor.
      * exists (l ++ [record]). split; [by apply append_at_same|].
        simpl. rewrite !length_app. simpl. lia.
      * rewrite Forall_forall in Hal2 |- *. intros s0 Hs0.
        eapply aligned_frame; [|by apply Hal2].
        apply append_at_other. intros Heq. apply Hd2. rewrite Heq.
        by apply list_elem_of_fmap_2.
  - split; simpl; by rewrite Hall'.
Qed.

Lemma active_snapshot_world r remaining board w :
  (active_snapshot r remaining board w).2 = w.
Proof. unfold active_snapshot. by destruct (quiz r !! current r). Qed.

Lemma state_inv env room w : inv w → inv (state env room w).2.
Proof.
  intros [Hnd Hal]. unfold state.
  destruct (get_room w room) as [[ρ r]|] eqn:Hr; [|by split].
  apply get_room_Some in Hr as [_ Hρ].
  destruct (ended r); [by split|].
  destruct (started r); [|by split]. simpl.
  destruct (start_time r) as [t0|]; [|by split].
  case_bool_decide; [|rewrite active_snapshot_world; by split].
  destruct (quiz r !! current r) as [qu|]; [|by split].
  destruct (expire env qu (duration r) (students r) (list_store w)
              (S (clock w))) as [[d h] k] eqn:Hex.
  destruct (all_students_insert _ _ _ Hρ) as (pre & post & Hall & Hall').
  rewrite Hall in Hnd, Hal.
  destruct (expire_spec _ _ _ _ _ _ _ _ _ Hex) as (_ & Hsame & Hframe & Hnew).
  { by eapply inv_room_sep. }
  { by eapply inv_room_aligned. }
  destruct (inv_frame pre post (studs r) d.*2 (list_store w) h)
    as [Hnd' Hal']; [done..|].
  case_bool_decide; [|rewrite active_snapshot_world];
    split; simpl; by rewrite Hall'.
Qed.

Lemma create_room_inv env fuel topic count w o w' :
  create_room env fuel topic count w = Some (o, w') → inv w → inv w'.
Proof.
  unfold create_room. intros Hcr [Hnd Hal].
  destruct (choices env (rng w) alphabet 5) as [code k1].
  destruct (generate_mcqs env fuel k1 topic count) as [[quiz0 k2]|]; [|done].
  simplify_eq. split; simpl; unfold all_students in *;
    by rewrite bind_app, bind_cons, !app_nil_r.
Qed.

(** ** Runs of the server

    A request is one call of a handler.  [handle] answers [None] when the
    handler does not come back within [fuel] turns of the generator loop. *)

Inductive Request :=
| CreateRoom (topic : string) (count : Z)
| JoinRoom (room name : string)
| Start (room : string)
| Submit (room name : string) (ans : option string)
| State (room : string).

Definition handle (env : Env) (fuel : nat) (req : Request) (w : World)
  : option (Outcome * World) :=
  match req with
  | CreateRoom topic count => create_room env fuel topic count w
  | JoinRoom room name => Some (join_room room name w)
  | Start room => Some (start_quiz env room w)
  | Submit room name ans => Some (submit env room name ans w)
  | State room => Some (state env room w)
  end.

(** [w'] is the world one handled request after [w], whether the handler
    returned or raised. *)
Definition step (env : Env) (w w' : World) : Prop :=
  ∃ fuel req o, handle env fuel req w = Some (o, w').

Definition reachable (env : Env) (w : World) : Prop := rtc (step env) boot w.

Lemma step_inv env w w' : step env w w' → inv w → inv w'.
Proof.
  intros (fuel & req & o & Hh) Hinv. destruct req; simpl in Hh.
  - by eapply create_room_inv.
  - simplify_eq. replace w' with (join_room room name w).2 by by rewrite Hh.
    by apply join_room_inv.
  - simplify_eq. replace w' with (start_quiz env room w).2 by by rewrite Hh.
    by apply start_quiz_inv.
  - simplify_eq. replace w' with (submit env room name ans w).2 by by rewrite Hh.
    by apply submit_inv.
  - simplify_eq. replace w' with (state env room w).2 by by rewrite Hh.
    by apply state_inv.
Qed.

Lemma boot_inv : inv boot.
Proof. split; simpl; constructor. Qed.

Lemma reachable_inv env w : reachable env w → inv w.
Proof.
  intros Hr.
  apply (rtc_ind_r (R := step env) inv boot); [apply boot_inv| |exact Hr].
  intros y z _ Hstep IH. by eapply step_inv.
Qed.

Lemma dict_get_elem name s d : dict_get name d = Some s → s ∈ d.*2.
Proof.
  intros (d1 & d2 & -> & _)%dict_get_split. set_solver.
Qed.

(** C7: in every world the server can reach, every student record of
    every room has as many [times] as its [answers] list has records.
    Reachable worlds are those obtained from the empty store by handled
    requests (create, join, start, submit, inspect with or without an
    advance), so each of these operations preserves the equality. *)
Theorem times_answers_same_length env w ρ r name s :
  reachable env w →
  room_store w !! ρ = Some r →
  dict_get name (students r) = Some s →
  ∃ l, list_store w !! answers s = Some l ∧ length (times s) = length l.
Proof.
  intros [_ Hal]%reachable_inv Hρ Hs.
  rewrite Forall_forall in Hal. apply Hal.
  unfold all_students. apply list_elem_of_bind. exists r. split.
  - by eapply dict_get_elem.
  - by eapply list_elem_of_lookup_2.
Qed.

(** ** The question index *)

(** [r'] is a later state of the room object [r]: the index has not gone
    back, and a room that had ended is still ended at the same index. *)
Definition later (r r' : Room) : Prop :=
  (current r ≤ current r')%nat
  ∧ (ended r = true → current r' = current r ∧ ended r' = true).

Lemma later_refl r : later r r.
Proof. by split. Qed.

Lemma later_trans r1 r2 r3 : later r1 r2 → later r2 r3 → later r1 r3.
Proof.
  intros [H1 H1'] [H2 H2']. split; [lia|].
  intros He. destruct (H1' He) as [Hc He2].
  destruct (H2' He2) as [Hc' He3]. split; [congruence|done].
Qed.

(** Every room object of [rs] is still in [rs'], in a later state. *)
Definition store_later (rs rs' : list Room) : Prop :=
  ∀ ρ r, rs !! ρ = Some r → ∃ r', rs' !! ρ = Some r' ∧ later r r'.

Lemma store_later_refl rs : store_later rs rs.
Proof. intros ρ r Hr. exists r. split; [done|apply later_refl]. Qed.

Lemma store_later_insert rs ρ0 r0 r0' :
  rs !! ρ0 = Some r0 → later r0 r0' → store_later rs (<[ρ0 := r0']> rs).
Proof.
  intros H0 Hl ρ r Hr. destruct (decide (ρ = ρ0)) as [->|Hne].
  - simplify_eq. exists r0'. split; [|done].
    apply list_lookup_insert_eq. by eapply lookup_lt_Some.
  - exists r. split; [|apply later_refl].
    by rewrite list_lookup_insert_ne.
Qed.

Lemma join_room_later room name w :
  store_later (room_store w) (room_store (join_room room name w).2).
Proof.
  unfold join_room.
  destruct (get_room w room) as [[ρ r]|] eqn:Hr; [|apply store_later_refl].
  apply get_room_Some in Hr as [_ Hρ]. simpl.
  eapply store_later_insert; [done|]. by split.
Qed.

Lemma start_quiz_later env room w :
  store_later (room_store w) (room_store (start_quiz env room w).2).
Proof.
  unfold start_quiz.
  destruct (get_room w room) as [[ρ r]|] eqn:Hr; [|apply store_later_refl].
  apply get_room_Some in Hr as [_ Hρ].
  destruct (stamp env (S (clock w)) (students r)) as [d k]. simpl.
  eapply store_later_insert; [done|]. by split.
Qed.

Lemma submit_later env room name ans w :
  store_later (room_store w) (room_store (submit env room name ans w).2).
Proof.
  unfold submit.
  destruct (get_room w room) as [[ρ r]|] eqn:Hr; [|apply store_later_refl].
  apply get_room_Some in Hr as [_ Hρ].
  repeat case_match; try apply store_later_refl; simpl;
    (eapply store_later_insert; [done|]); by split.
Qed.

Lemma state_later env room w :
  store_later (room_store w) (room_store (state env room w).2).
Proof.
  unfold state.
  destruct (get_room w room) as [[ρ r]|] eqn:Hr; [|apply store_later_refl].
  apply get_room_Some in Hr as [_ Hρ].
  destruct (ended r) eqn:He; [apply store_later_refl|].
  destruct (started r); [|apply store_later_refl]. simpl.
  destruct (start_time r) as [t0|]; [|apply store_later_refl].
  case_bool_decide; [|rewrite active_snapshot_world; apply store_later_refl].
  destruct (quiz r !! current r) as [qu|]; [|apply store_later_refl].
  destruct (expire env qu (duration r) (students r) (list_store w)
              (S (clock w))) as [[d h] k].
  case_bool_decide; [|rewrite active_snapshot_world]; simpl;
    (eapply store_later_insert; [done|]); split; simpl; (lia || congruence).
Qed.

Lemma create_room_later env fuel topic count w o w' :
  create_room env fuel topic count w = Some (o, w') →
  store_later (room_store w) (room_store w').
Proof.
  unfold create_room. intros Hcr.
  destruct (choices env (rng w) alphabet 5) as [code k1].
  destruct (generate_mcqs env fuel k1 topic count) as [[quiz0 k2]|]; [|done].
  simplify_eq. simpl. intros ρ r Hr. exists r. split; [|apply later_refl].
  rewrite lookup_app_l; [done|by eapply lookup_lt_Some].
Qed.

Lemma step_later env w w' :
  step env w w' → store_later (room_store w) (room_store w').
Proof.
  intros (fuel & req & o & Hh). destruct req; simpl in Hh.
  - by eapply create_room_later.
  - simplify_eq. replace w' with (join_room room name w).2 by by rewrite Hh.
    apply join_room_later.
  - simplify_eq. replace w' with (start_quiz env room w).2 by by rewrite Hh.
    apply start_quiz_later.
  - simplify_eq. replace w' with (submit env room name ans w).2 by by rewrite Hh.
    apply submit_later.
  - simplify_eq. replace w' with (state env room w).2 by by rewrite Hh.
    apply state_later.
Qed.

(** C8: over any sequence of handled requests, the [current] index of a
    room never decreases, and once [ended] is true the index no longer
    changes (and the room stays ended). *)
Theorem current_never_decreases env w w' ρ r :
  rtc (step env) w w' →
  room_store w !! ρ = Some r →
  ∃ r', room_store w' !! ρ = Some r'
    ∧ (current r ≤ current r')%nat
    ∧ (ended r = true → current r' = current r ∧ ended r' = true).
Proof.
  intros Hsteps. revert r.
  induction Hsteps as [w|w w1 w' Hstep _ IH]; intros r Hr.
  { exists r. by split_and!. }
  destruct (step_later _ _ _ Hstep _ _ Hr) as (r1 & Hr1 & Hl1).
  destruct (IH _ Hr1) as (r' & Hr' & Hl').
  exists r'. split; [done|]. by apply (later_trans r r1 r').
Qed.

(** ** Submitting twice *)

Lemma dict_get_set name s d : dict_get name (dict_set name s d) = Some s.
Proof.
  induction d as [|[n s0] d IH]; simpl.
  { by rewrite decide_True. }
  destruct (decide (n = name)) as [->|Hne]; simpl.
  - by rewrite decide_True.
  - by rewrite decide_False.
Qed.

Lemma get_room_set_room w code ρ r r' h k :
  get_room w code = Some (ρ, r) →
  get_room (set_room ρ r' (set_lists h (set_clock k w))) code = Some (ρ, r').
Proof.
  intros [Hc Hρ]%get_room_Some. unfold get_room. simpl. rewrite Hc. simpl.
  rewrite list_lookup_insert_eq; [done|by eapply lookup_lt_Some].
Qed.

(** What the first accepted answer of a student to the active question
    writes: one more time, one more record, and one point if it is right. *)
Definition recorded (w w1 : World) (qu : Question) (ans : option string)
    (s s1 : Student) : Prop :=
  answered s1 = true
  ∧ answers s1 = answers s
  ∧ length (times s1) = S (length (times s))
  ∧ score s1 = (if bool_decide (ans = Some (answer qu)) then score s + 1 else score s)
  ∧ ∀ l, list_store w !! answers s = Some l →
         list_store w1 !! answers s
         = Some (l ++ [{| question := q qu; selected := ans;
                          correct := answer qu;
                          is_correct := bool_decide (ans = Some (answer qu)) |}]).

(** C6: when a participant of a room has had a submission accepted, a
    second submission by the same participant for the same question (any
    answer) returns success and leaves the whole world, hence the
    participant's score, times and answers, exactly as the first one left
    it.  If the participant had not answered before, the first submission
    recorded exactly one time and one answer record and scored at most
    once, and that is still the state after the second. *)
Theorem submit_twice env room name a1 a2 w w1 ρ r s :
  get_room w room = Some (ρ, r) →
  dict_get name (students r) = Some s →
  submit env room name a1 w = (Return ROk, w1) →
  submit env room name a2 w1 = (Return ROk, w1)
  ∧ ∃ r1 s1,
      get_room w1 room = Some (ρ, r1)
      ∧ dict_get name (students r1) = Some s1
      ∧ answered s1 = true
      ∧ (answered s = false →
         ∃ qu, quiz r !! current r = Some qu ∧ recorded w w1 qu a1 s s1).
Proof.
  intros Hr Hs Hsub. unfold submit in Hsub. rewrite Hr, Hs in Hsub.
  destruct (answered s) eqn:Hans.
  { simplify_eq. split.
    - unfold submit. by rewrite Hr, Hs, Hans.
    - by exists r, s. }
  destruct (quiz r !! current r) as [qu|] eqn:Hqu; [|done].
  destruct (q_start s) as [t|] eqn:Hq; [|done].
  injection Hsub as <-.
  match goal with
  | |- context [set_room ρ ?r' (set_lists ?h (set_clock ?k w))] =>
      pose proof (get_room_set_room w room ρ r r' h k Hr) as Hr1
  end.
  split.
  - unfold submit. rewrite Hr1. simpl. by rewrite dict_get_set.
  - eexists _, _. split; [exact Hr1|]. simpl. rewrite dict_get_set.
    split; [done|]. split; [done|]. intros _. exists qu. split; [done|].
    unfold recorded. simpl. split_and!; [done..| |done|].
    + rewrite length_app. simpl. lia.
    + intros l Hl. by apply append_at_same.
Qed.

(** ** Sessions

    A session is a list of requests handled one after the other. *)

Fixpoint run (env : Env) (fuel : nat) (reqs : list Request) (w : World)
  : option (list Outcome * World) :=
  match reqs with
  | [] => Some ([], w)
  | req :: reqs' =>
      match handle env fuel req w with
      | None => None
      | Some (o, w1) =>
          match run env fuel reqs' w1 with
          | None => None
          | Some (os, w') => Some (o :: os, w')
          end
      end
  end.

Lemma run_steps env fuel reqs w os w' :
  run env fuel reqs w = Some (os, w') → rtc (step env) w w'.
Proof.
  revert w os. induction reqs as [|req reqs IH]; intros w os Hrun; simpl in Hrun.
  { simplify_eq. apply rtc_refl. }
  destruct (handle env fuel req w) as [[o w1]|] eqn:Hh; [|done].
  destruct (run env fuel reqs w1) as [[os' w2]|] eqn:Hr; [|done].
  simplify_eq. eapply rtc_l; [by exists fuel, req, o|by eapply IH].
Qed.

(** A process without the wikipedia package, whose [k]-th clock reading
    is [dt * k] seconds and whose [k]-th random draw is [k]. *)
Definition offline (dt : Z) : Env :=
  {| WIKI := false; page := λ _, None; summary := λ _, None;
     time_time := λ k, inject_Z (dt * Z.of_nat k); randbits := λ k, k |}.

(** The world [reqs] leads to from the empty store. *)
Definition world_after (env : Env) (reqs : list Request) : World :=
  match run env 10 reqs boot with
  | Some (_, w) => w
  | None => boot
  end.

(** ** The quiz generator need not come back *)

Lemma clean_empty : clean "" = "".
Proof. reflexivity. Qed.

(** A non-positive count ends the loop at its first test. *)
Lemma generate_mcqs_no_question env fuel k topic count :
  count ≤ 0 → generate_mcqs env (S fuel) k topic count = Some ([], k).
Proof.
  intros Hc. unfold generate_mcqs. cbn [mcq_loop].
  rewrite bool_decide_eq_false_2; [done|]. simpl. lia.
Qed.

(** None of the fallback sentences about "Python" contains a fallback
    concept. *)
Lemma python_no_valid i s :
  fallback_sentences "Python" !! i = Some s →
  valid_concepts s ∅ fallback_concepts = [].
Proof.
  destruct i as [|[|[|[|i]]]]; intros Hs; simplify_eq/=; by vm_compute.
Qed.

Lemma python_loop env fuel k :
  mcq_loop env fuel (fallback_sentences "Python") fallback_concepts 1 [] ∅ k
  = None.
Proof.
  revert k. induction fuel as [|fuel IH]; intros k; [done|].
  cbn [mcq_loop]. rewrite bool_decide_eq_true_2 by (simpl; lia).
  unfold choice.
  destruct (fallback_sentences "Python"
              !! randbelow env k (length (fallback_sentences "Python")))
    as [s|] eqn:Hs.
  - cbn [from_option]. unfold id. rewrite (python_no_valid _ _ Hs). apply IH.
  - apply lookup_ge_None in Hs. unfold randbelow in Hs. simpl in Hs.
    pose proof (Nat.mod_upper_bound (randbits env k) 4). lia.
Qed.

(** C5 fails on the code: without source text (here: the wikipedia
    package is not installed), a request for one question about "Python"
    keeps [create_room] in the generator loop for ever, whatever the
    random source draws: no amount of fuel yields a result. *)
Theorem create_room_python_diverges tt rb fuel w :
  create_room
    {| WIKI := false; page := λ _, None; summary := λ _, None;
       time_time := tt; randbits := rb |}
    fuel "Python" 1 w
  = None.
Proof.
  unfold create_room.
  destruct (choices _ (rng w) alphabet 5) as [code k1].
  unfold generate_mcqs, wiki_text. cbn [WIKI negb]. rewrite clean_empty.
  change (sentences_of "Python" "") with (fallback_sentences "Python").
  change (concepts_of "") with fallback_concepts.
  by rewrite python_loop.
Qed.

(** ** Where the handlers raise *)

(** Inspecting a started room with an empty quiz indexes the quiz at
    position 0, on the expiry path as on the path of an open window. *)
Lemma state_empty_quiz env room w ρ r t0 :
  get_room w room = Some (ρ, r) →
  quiz r = [] → ended r = false → started r = true → start_time r = Some t0 →
  state env room w = (Raise IndexError, set_clock (S (clock w)) w).
Proof.
  intros Hr Hq He Hs Ht. unfold state, active_snapshot.
  rewrite Hr, He, Hs, Ht, Hq. simpl. by case_bool_decide.
Qed.

(** A participant whose timer was never stamped cannot submit. *)
Lemma submit_unstamped env room name ans w ρ r s qu :
  get_room w room = Some (ρ, r) →
  dict_get name (students r) = Some s →
  answered s = false → q_start s = None →
  quiz r !! current r = Some qu →
  submit env room name ans w = (Raise TypeError, set_clock (S (clock w)) w).
Proof.
  intros Hr Hs Ha Hq Hqu. unfold submit. by rewrite Hr, Hs, Ha, Hqu, Hq.
Qed.

(** Nor can anyone who has not answered once [current] is past the quiz. *)
Lemma submit_past_end env room name ans w ρ r s :
  get_room w room = Some (ρ, r) →
  dict_get name (students r) = Some s →
  answered s = false →
  (length (quiz r) ≤ current r)%nat →
  submit env room name ans w = (Raise IndexError, w).
Proof.
  intros Hr Hs Ha Hlen. unfold submit. rewrite Hr, Hs, Ha.
  by rewrite (lookup_ge_None_2 _ _ Hlen).
Qed.

(** [join_room] writes the same fresh record whatever the room's state. *)
Lemma join_room_record room name w ρ r :
  get_room w room = Some (ρ, r) →
  ∃ r',
    get_room (join_room room name w).2 room = Some (ρ, r')
    ∧ started r' = started r
    ∧ dict_get name (students r')
      = Some {| score := 0; answered := false; times := [];
                answers := length (list_store w); q_start := None |}.
Proof.
  intros Hr. unfold join_room. rewrite Hr.
  apply get_room_Some in Hr as [Hc Hρ].
  eexists. split.
  - unfold get_room. simpl. rewrite Hc. simpl.
    rewrite list_lookup_insert_eq; [done|by eapply lookup_lt_Some].
  - simpl. by rewrite dict_get_set.
Qed.

Definition outcomes (env : Env) (reqs : list Request) : option (list Outcome) :=
  fst <$> run env 10 reqs boot.

(** C2 fails on the code: a room created with count 0 has an empty quiz,
    and once it is started every inspection raises [IndexError], whether
    the window is still open (clock step 1 s) or has expired (30 s). *)
Theorem empty_quiz_inspection_raises :
  let session :=
    [CreateRoom "Python" 0; JoinRoom "ABCDE" "A"; Start "ABCDE"; State "ABCDE"] in
  outcomes (offline 1) session
  = Some [Return (RRoom "ABCDE"); Return ROk; Return ROk; Raise IndexError]
  ∧ outcomes (offline 30) session
    = Some [Return (RRoom "ABCDE"); Return ROk; Return ROk; Raise IndexError]
  ∧ quiz <$> room_store (world_after (offline 1) (take 3 session)) = [[]].
Proof. by vm_compute. Qed.

(** C3 fails on the code: [submit] raises [TypeError] for a joined
    participant of a room that has not been started, and [IndexError] for
    a joined participant of a room that has ended. *)
Theorem submit_raises :
  outcomes (offline 1)
    [CreateRoom "Data" 1; JoinRoom "ABCDE" "A"; Submit "ABCDE" "A" (Some "Data")]
  = Some [Return (RRoom "ABCDE"); Return ROk; Raise TypeError]
  ∧ outcomes (offline 30)
      [CreateRoom "Data" 1; JoinRoom "ABCDE" "A"; Start "ABCDE"; State "ABCDE";
       Submit "ABCDE" "A" (Some "Data")]
    = Some [Return (RRoom "ABCDE"); Return ROk; Return ROk;
            Return (REnded [{| Entry.name := "A"; Entry.score := 0;
                               Entry.total_time := 0; Entry.answers := 0%nat |}]);
            Raise IndexError].
Proof. by vm_compute. Qed.

(** C4 fails on the code: a participant who joins a started room gets a
    record whose [q_start] is unset, and a submission by that participant
    for the active question then raises [TypeError]. *)
Theorem late_joiner_unstamped :
  let session := [CreateRoom "Data" 1; Start "ABCDE"; JoinRoom "ABCDE" "B"] in
  (λ r, (started r, ended r, students r))
    <$> room_store (world_after (offline 1) session)
  = [(true, false,
      [("B", {| score := 0; answered := false; times := []; answers := 0%nat;
                q_start := None |})])]
  ∧ outcomes (offline 1) (session ++ [Submit "ABCDE" "B" (Some "Data")])
    = Some [Return (RRoom "ABCDE"); Return ROk; Return ROk; Raise TypeError].
Proof. by vm_compute. Qed.

(** C1 fails on the code: the inspection that finds the window expired
    and advances returns the leaderboard it built before the advance.
    Student "A" never answered; the call appends the time-out (30 s and a
    record without selection) and returns an entry whose [total_time] is
    still 0, while the entry's [answers] list, being the student's own
    list object, already shows the time-out record. *)
Theorem expired_snapshot_stale :
  let env := offline 30 in
  let w0 :=
    world_after env [CreateRoom "Data" 1; JoinRoom "ABCDE" "A"; Start "ABCDE"] in
  let result := state env "ABCDE" w0 in
  let e := {| Entry.name := "A"; Entry.score := 0; Entry.total_time := 0;
              Entry.answers := 0%nat |} in
  result.1 = Return (REnded [e])
  ∧ (λ r, (current r, (λ ns, Py.sum (times ns.2)) <$> students r))
      <$> room_store result.2 = [(1%nat, [30])]
  ∧ deref result.2 (Entry.answers e)
    = [{| question := "_____ is widely used in modern systems?";
          selected := None; correct := "Data"; is_correct := false |}].
Proof. by vm_compute. Qed.

(** ** What an expiring inspection returns *)

Lemma sum_snoc l x : Py.sum (l ++ [x]) = Py.sum l + x.
Proof.
  unfold Py.sum. induction l as [|y l IH]; simpl; [lia|]. rewrite IH. lia.
Qed.

Lemma dict_get_pair name s d : dict_get name d = Some s → (name, s) ∈ d.
Proof.
  induction d as [|[n s0] d IH]; simpl; [done|].
  destruct (decide (n = name)) as [->|]; intros Hs.
  - simplify_eq. apply list_elem_of_here.
  - apply list_elem_of_further. by apply IH.
Qed.

(** The expiry loop leaves the score of a student alone and extends the
    [times] of exactly those who had not answered. *)
Lemma expire_student env qu dur d h k d' h' k' name s :
  expire env qu dur d h k = (d', h', k') →
  dict_get name d = Some s →
  ∃ s', dict_get name d' = Some s'
    ∧ times s' = (if answered s then times s else times s ++ [dur])
    ∧ answers s' = answers s
    ∧ score s' = score s.
Proof.
  revert h k d' h' k'.
  induction d as [|[n s0] d IH]; intros h k d' h' k' Hex Hget; [done|].
  cbn [expire] in Hex. cbn [dict_get] in Hget.
  destruct (answered s0) eqn:Hans;
    match type of Hex with
    | context [expire env qu dur d ?h1 (S k)] =>
        destruct (expire env qu dur d h1 (S k)) as [[d0 h0] k0] eqn:Hd
    end;
    simplify_eq; cbn [dict_get];
    (destruct (decide (n = name)) as [->|Hne];
     [ simplify_eq; eexists; split; [done|]; simpl; by rewrite Hans
     | by eapply IH ]).
Qed.

(** On every inspection that finds the window expired, the entry of a
    student who had not answered carries the total of the times before
    the time-out was appended: it is short of the student's new total by
    exactly the room's [duration]. *)
Lemma state_expired_entry env room w ρ r t0 qu name s :
  get_room w room = Some (ρ, r) →
  ended r = false → started r = true → start_time r = Some t0 →
  duration r - Py.int (time_time env (clock w) - t0) ≤ 0 →
  quiz r !! current r = Some qu →
  dict_get name (students r) = Some s → answered s = false →
  ∃ resp board r' s',
    (state env room w).1 = Return resp
    ∧ leaderboard_of resp = Some board
    ∧ entry (name, s) ∈ board
    ∧ get_room (state env room w).2 room = Some (ρ, r')
    ∧ dict_get name (students r') = Some s'
    ∧ Py.sum (times s') = Entry.total_time (entry (name, s)) + duration r.
Proof.
  intros Hr He Hst Ht Hrem Hqu Hs Hans.
  assert (entry (name, s) ∈ sorted (entry <$> students r)) as Hin.
  { rewrite sorted_perm. apply list_elem_of_fmap_2. by apply dict_get_pair. }
  unfold state. rewrite Hr, He, Hst, Ht. cbn [negb].
  rewrite bool_decide_eq_true_2 by done. rewrite Hqu.
  destruct (expire env qu (duration r) (students r) (list_store w)
              (S (clock w))) as [[d h] k] eqn:Hex.
  destruct (expire_student _ _ _ _ _ _ _ _ _ _ _ Hex Hs)
    as (s' & Hs' & Htimes & _ & _).
  rewrite Hans in Htimes.
  assert (Py.sum (times s') = Entry.total_time (entry (name, s)) + duration r)
    as Hsum by (rewrite Htimes; apply sum_snoc).
  case_bool_decide as Hend.
  - eexists _, _, _, s'. cbn [fst snd]. split; [done|]. split; [done|].
    split; [done|]. split; [by eapply get_room_set_room|]. by split.
  - unfold active_snapshot. cbn [quiz current].
    destruct (quiz r !! S (current r)) as [qn|] eqn:Hqn.
    + eexists _, _, _, s'. cbn [fst snd]. split; [done|]. split; [done|].
      split; [done|]. split; [by eapply get_room_set_room|]. by split.
    + apply lookup_ge_None in Hqn. lia.
Qed.

(** Two questions, two participants who answer nothing right.  In the
    first round "B" answers after 5 s and "A" after 15 s, and the second
    inspection finds the window expired; in the second round "A" answers
    after 15 s again and "B" never does. *)
Definition second_round : list Request :=
  [CreateRoom "Data Model" 2; JoinRoom "ABCDE" "A"; JoinRoom "ABCDE" "B";
   Start "ABCDE";
   Submit "ABCDE" "B" (Some "System"); Submit "ABCDE" "A" (Some "System");
   State "ABCDE"; State "ABCDE";
   Submit "ABCDE" "A" (Some "System")].



(** ** Inspections that only read *)

Lemma state_ended env room w ρ r :
  get_room w room = Some (ρ, r) → ended r = true →
  state env room w = (Return (REnded (sorted (entry <$> students r))), w).
Proof. intros Hr He. unfold state. by rewrite Hr, He. Qed.

(** While the window is open an inspection consumes one clock reading
    and changes nothing else: no advance, no time-out record. *)
Lemma state_open_window env room w ρ r t0 :
  get_room w room = Some (ρ, r) →
  ended r = false → started r = true → start_time r = Some t0 →
  0 < duration r - Py.int (time_time env (clock w) - t0) →
  (state env room w).2 = set_clock (S (clock w)) w.
Proof.
  intros Hr He Hst Ht Hrem. unfold state. rewrite Hr, He, Hst, Ht. cbn [negb].
  rewrite bool_decide_eq_false_2 by lia. apply active_snapshot_world.
Qed.

(** ** The theorems at work on concrete sessions *)

Definition lobby : list Request :=
  [CreateRoom "Data" 1; JoinRoom "ABCDE" "A"; JoinRoom "ABCDE" "B"].

Definition round_one : list Request :=
  lobby ++ [Start "ABCDE"; Submit "ABCDE" "B" (Some "Data");
            Submit "ABCDE" "A" (Some "Model")].

Definition round_one_board : list Entry.t :=
  [ {| Entry.name := "B"; Entry.score := 1; Entry.total_time := 1;
       Entry.answers := 1%nat |};
    {| Entry.name := "A"; Entry.score := 0; Entry.total_time := 3;
       Entry.answers := 0%nat |} ].

Lemma times_answers_same_length_witness :
  let w := world_after (offline 1) round_one in
  ∃ l, list_store w !! 1%nat = Some l ∧ length [1] = length l.
Proof.
  intros w.
  apply (times_answers_same_length (offline 1) w 0
           {| quiz := [{| q := "_____ is widely used in modern systems?";
                          options := ["System"; "Algorithm"; "Data"; "Model"];
                          answer := "Data" |}];
              students :=
                [("A", {| score := 0; answered := true; times := [3];
                          answers := 0; q_start := Some (inject_Z 1) |});
                 ("B", {| score := 1; answered := true; times := [1];
                          answers := 1; q_start := Some (inject_Z 2) |})];
              current := 0; started := true; ended := false; duration := 30;
              start_time := Some (inject_Z 0) |}
           "B"
           {| score := 1; answered := true; times := [1];
              answers := 1; q_start := Some (inject_Z 2) |}).
  - eapply (run_steps (offline 1) 10 round_one boot). by vm_compute.
  - by vm_compute.
  - by vm_compute.
Defined.

Lemma current_never_decreases_witness :
  let env := offline 30 in
  let w := world_after env (lobby ++ [Start "ABCDE"]) in
  let w' := world_after env (lobby ++ [Start "ABCDE"; State "ABCDE"; State "ABCDE"]) in
  ∃ r', room_store w' !! 0%nat = Some r'
    ∧ (0 ≤ current r')%nat
    ∧ (false = true → current r' = 0%nat ∧ ended r' = true).
Proof.
  intros env w w'.
  apply (current_never_decreases env w w' 0
           {| quiz := [{| q := "_____ is widely used in modern systems?";
                          options := ["System"; "Algorithm"; "Data"; "Model"];
                          answer := "Data" |}];
              students :=
                [("A", {| score := 0; answered := false; times := [];
                          answers := 0; q_start := Some (inject_Z 30) |});
                 ("B", {| score := 0; answered := false; times := [];
                          answers := 1; q_start := Some (inject_Z 60) |})];
              current := 0; started := true; ended := false; duration := 30;
              start_time := Some (inject_Z 0) |}).
  - eapply (run_steps env 10 [State "ABCDE"; State "ABCDE"] w). by vm_compute.
  - by vm_compute.
Defined.

Lemma submit_twice_witness :
  let env := offline 1 in
  let w := world_after env (lobby ++ [Start "ABCDE"]) in
  let w1 := (submit env "ABCDE" "A" (Some "Data") w).2 in
  submit env "ABCDE" "A" (Some "Model") w1 = (Return ROk, w1).
Proof.
  intros env w w1.
  refine (proj1 (submit_twice env "ABCDE" "A" (Some "Data") (Some "Model") w w1 0
           {| quiz := [{| q := "_____ is widely used in modern systems?";
                          options := ["System"; "Algorithm"; "Data"; "Model"];
                          answer := "Data" |}];
              students :=
                [("A", {| score := 0; answered := false; times := [];
                          answers := 0; q_start := Some (inject_Z 1) |});
                 ("B", {| score := 0; answered := false; times := [];
                          answers := 1; q_start := Some (inject_Z 2) |})];
              current := 0; started := true; ended := false; duration := 30;
              start_time := Some (inject_Z 0) |}
           {| score := 0; answered := false; times := [];
              answers := 0; q_start := Some (inject_Z 1) |} _ _ _));
    by vm_compute.
Defined.

(** * Further properties of the code *)

(** ** The text that [clean] produces *)

Definition strip_chars (l : list ascii) : list ascii :=
  reverse (Py.lstrip_go (reverse (Py.lstrip_go l))).

Definition clean_chars (l : list ascii) : list ascii :=
  strip_chars (squeeze false (blank_others (drop_parens false l))).

(** No blank follows a blank; with [prev_blank] no blank comes first. *)
Fixpoint single_spaced (prev_blank : bool) (l : list ascii) : bool :=
  match l with
  | [] => true
  | a :: l' =>
      if Ascii.is_space a then negb prev_blank && single_spaced true l'
      else single_spaced false l'
  end.

(** Text as [clean] leaves it: letters, digits, full stops and spaces
    only, no space next to a space, none at either end. *)
Record tidy (l : list ascii) : Prop := {
  tidy_kept : Forall (λ a, keep_char a = true) l;
  tidy_single : single_spaced false l = true;
  tidy_head : ∀ a, head l = Some a → Ascii.is_space a = false;
  tidy_last : ∀ a, last l = Some a → Ascii.is_space a = false
}.

Lemma chars_str l : Py.chars (Py.str l) = l.
Proof. apply String.list_ascii_of_string_of_list_ascii. Qed.

Lemma str_chars s : Py.str (Py.chars s) = s.
Proof. apply String.string_of_list_ascii_of_string. Qed.

Lemma clean_unfold text : clean text = Py.str (clean_chars (Py.chars text)).
Proof. unfold clean, Py.strip, clean_chars, strip_chars. by rewrite chars_str. Qed.

Lemma kept_blank a : keep_char a = true → Ascii.is_space a = true → a = " "%char.
Proof. destruct a as [[] [] [] [] [] [] [] []]; by vm_compute. Qed.

Lemma blank_others_kept l : Forall (λ a, keep_char a = true) (blank_others l).
Proof.
  unfold blank_others. apply Forall_fmap, Forall_true. intros a. simpl.
  by destruct (keep_char a) eqn:Ha.
Qed.

Lemma squeeze_kept b l :
  Forall (λ a, keep_char a = true) l →
  Forall (λ a, keep_char a = true) (squeeze b l).
Proof.
  intros Hl. revert b. induction Hl as [|a l Ha Hl IH]; intros b; simpl; [done|].
  destruct (Ascii.is_space a); [destruct b|]; try constructor; auto.
Qed.

Lemma squeeze_single b l : single_spaced b (squeeze b l) = true.
Proof.
  revert b. induction l as [|a l IH]; intros b; simpl; [done|].
  destruct (Ascii.is_space a) eqn:Ha.
  - destruct b; [apply IH|]. simpl. by rewrite IH.
  - simpl. by rewrite Ha.
Qed.

Lemma single_spaced_weaken b l :
  single_spaced b l = true → single_spaced false l = true.
Proof.
  destruct l as [|a l]; simpl; [done|].
  destruct (Ascii.is_space a); [|done]. by intros [_ ?]%andb_true_iff.
Qed.

Lemma single_spaced_app b l1 l2 :
  single_spaced b (l1 ++ l2) = true →
  single_spaced b l1 = true ∧ single_spaced false l2 = true.
Proof.
  revert b. induction l1 as [|a l1 IH]; intros b; simpl.
  { intros H. split; [done|]. by eapply single_spaced_weaken. }
  destruct (Ascii.is_space a).
  - intros [Hb H]%andb_true_iff. rewrite Hb. simpl. by apply IH.
  - apply IH.
Qed.

(** [lstrip_go] cuts off the blanks in front, and only those. *)
Lemma lstrip_go_spec l :
  ∃ blanks, l = blanks ++ Py.lstrip_go l
    ∧ Forall (λ a, Ascii.is_space a = true) blanks
    ∧ ∀ a, head (Py.lstrip_go l) = Some a → Ascii.is_space a = false.
Proof.
  induction l as [|a l (blanks & Hl & Hb & Hh)]; simpl.
  { exists []. by split_and!. }
  destruct (Ascii.is_space a) eqn:Ha.
  - exists (a :: blanks). split_and!; [by rewrite Hl at 1|by constructor|done].
  - exists []. split_and!; [done|done|]. intros a' [= <-]. done.
Qed.

(** [strip] returns the part between the blanks at the two ends. *)
Lemma strip_chars_spec l :
  ∃ front back, l = front ++ strip_chars l ++ back
    ∧ Forall (λ a, Ascii.is_space a = true) front
    ∧ Forall (λ a, Ascii.is_space a = true) back
    ∧ (∀ a, head (strip_chars l) = Some a → Ascii.is_space a = false)
    ∧ (∀ a, last (strip_chars l) = Some a → Ascii.is_space a = false).
Proof.
  unfold strip_chars.
  destruct (lstrip_go_spec l) as (front & Hl & Hfront & Hhead).
  destruct (lstrip_go_spec (reverse (Py.lstrip_go l))) as (kcab & Hr & Hback & Hlast).
  set (y := Py.lstrip_go l) in *.
  set (z := Py.lstrip_go (reverse y)) in *.
  assert (y = reverse z ++ reverse kcab) as Hy.
  { by rewrite <- reverse_app, <- Hr, reverse_involutive. }
  exists front, (reverse kcab). split_and!.
  - by rewrite <- Hy.
  - done.
  - by apply Forall_reverse.
  - intros a Ha. apply Hhead. rewrite Hy.
    destruct (reverse z); [done|]. done.
  - intros a Ha. apply Hlast. by rewrite <- last_reverse.
Qed.

Lemma clean_chars_tidy l : tidy (clean_chars l).
Proof.
  unfold clean_chars.
  set (x := squeeze false (blank_others (drop_parens false l))).
  assert (Forall (λ a, keep_char a = true) x) as Hkept.
  { apply squeeze_kept, blank_others_kept. }
  pose proof (squeeze_single false (blank_others (drop_parens false l))) as Hs.
  fold x in Hs.
  destruct (strip_chars_spec x) as (front & back & Hx & _ & _ & Hh & Hl).
  rewrite Hx in Hkept, Hs.
  apply Forall_app in Hkept as [_ [Hkept _]%Forall_app].
  apply single_spaced_app in Hs as [_ [Hs _]%single_spaced_app].
  by split.
Qed.

Lemma single_spaced_no_pair l l1 a b l2 :
  single_spaced false l = true → l = l1 ++ a :: b :: l2 →
  ¬ (Ascii.is_space a = true ∧ Ascii.is_space b = true).
Proof.
  intros Hs -> [Ha Hb].
  apply single_spaced_app in Hs as [_ Hs]. simpl in Hs.
  rewrite Ha, Hb in Hs. done.
Qed.

(** X1: whatever the input, the text [clean] returns consists of ASCII
    letters, digits, full stops and spaces only, has no two spaces in a
    row, and neither starts nor ends with a space. *)
Theorem clean_output text :
  let out := Py.chars (clean text) in
  Forall (λ a, keep_char a = true) out
  ∧ (∀ l1 a b l2, out = l1 ++ a :: b :: l2 → ¬ (a = " "%char ∧ b = " "%char))
  ∧ head out ≠ Some " "%char
  ∧ last out ≠ Some " "%char.
Proof.
  intros out. unfold out. rewrite clean_unfold, chars_str.
  destruct (clean_chars_tidy (Py.chars text)) as [Hk Hs Hh Hl].
  split_and!; [done| | |].
  - intros l1 a b l2 Heq [-> ->].
    by eapply (single_spaced_no_pair _ _ _ _ _ Hs Heq).
  - intros H. by apply Hh in H.
  - intros H. by apply Hl in H.
Qed.

Lemma drop_parens_tidy l :
  Forall (λ a, keep_char a = true) l → drop_parens false l = l.
Proof.
  induction 1 as [|a l Ha Hl IH]; simpl; [done|].
  destruct (decide (a = "("%char)) as [->|]; [done|]. by rewrite IH.
Qed.

Lemma blank_others_tidy l :
  Forall (λ a, keep_char a = true) l → blank_others l = l.
Proof.
  unfold blank_others. induction 1 as [|a l Ha Hl IH]; [done|].
  rewrite fmap_cons, IH. by rewrite Ha.
Qed.

Lemma squeeze_tidy b l :
  Forall (λ a, keep_char a = true) l → single_spaced b l = true →
  squeeze b l = l.
Proof.
  intros Hl. revert b. induction Hl as [|a l Ha Hl IH]; intros b; simpl; [done|].
  destruct (Ascii.is_space a) eqn:Hsp.
  - intros [Hb Hs]%andb_true_iff. destruct b; [done|].
    rewrite IH by done. by rewrite (kept_blank a).
  - intros Hs. by rewrite IH.
Qed.

Lemma lstrip_go_tidy l :
  (∀ a, head l = Some a → Ascii.is_space a = false) → Py.lstrip_go l = l.
Proof.
  destruct l as [|a l]; simpl; [done|]. intros H. by rewrite (H a).
Qed.

Lemma clean_chars_fixed l : tidy l → clean_chars l = l.
Proof.
  intros [Hk Hs Hh Hl]. unfold clean_chars, strip_chars.
  rewrite drop_parens_tidy, blank_others_tidy, squeeze_tidy by done.
  rewrite (lstrip_go_tidy l) by done.
  rewrite lstrip_go_tidy; [apply reverse_involutive|].
  intros a. rewrite head_reverse. apply Hl.
Qed.

(** X2: cleaning is idempotent: text that went through [clean] comes
    back unchanged from a second pass. *)
Theorem clean_idempotent text : clean (clean text) = clean text.
Proof.
  rewrite (clean_unfold (clean text)), (clean_unfold text), chars_str.
  by rewrite clean_chars_fixed by apply clean_chars_tidy.
Qed.

(** ** The concepts that [extract_concepts] returns *)

Lemma collect_ind (R : string → Prop) p words concepts :
  (∀ w c, w ∈ words → p w c = true → (w ∉ c) ∧ (R w)) →
  NoDup concepts → Forall R concepts →
  NoDup (collect p words concepts) ∧ Forall R (collect p words concepts).
Proof.
  revert concepts. induction words as [|w words IH]; intros c Hp Hnd HR; [done|].
  cbn [collect]. apply IH.
  - intros w' c' Hw'. apply Hp. by apply list_elem_of_further.
  - destruct (p w c) eqn:Hpw; [|done].
    destruct (Hp w c) as [Hnew _]; [apply list_elem_of_here|done|].
    apply NoDup_app. split_and!; [done| |apply NoDup_singleton].
    intros x Hx ->%list_elem_of_singleton. done.
  - destruct (p w c) eqn:Hpw; [|done].
    destruct (Hp w c) as [_ HRw]; [apply list_elem_of_here|done|].
    apply Forall_app. split; [done|]. by constructor.
Qed.

(** A word qualifies as a concept by its capital initial and more than
    four characters, or by more than seven characters. *)
Definition concept_like (w : string) : Prop :=
  (∃ a rest, w = String a rest ∧ Py.isupper a = true ∧ (4 < Py.len w)%nat)
  ∨ (7 < Py.len w)%nat.

(** The concepts gathered by the two passes, before the cut at 40. *)
Definition gathered (text : string) : list string :=
  let words := Py.split text in
  let capital w concepts :=
    match w with
    | String a _ =>
        Py.isupper a && bool_decide (4 < Py.len w)%nat && negb (Py.mem w concepts)
    | EmptyString => false
    end in
  let long w concepts :=
    bool_decide (7 < Py.len w)%nat && negb (Py.mem w concepts) in
  let concepts := collect capital words [] in
  if bool_decide (length concepts < 6)%nat then collect long words concepts
  else concepts.

Lemma extract_concepts_gathered text :
  extract_concepts text = take 40 (gathered text).
Proof. reflexivity. Qed.

Lemma gathered_spec text :
  NoDup (gathered text)
  ∧ Forall (λ w, w ∈ Py.split text ∧ concept_like w) (gathered text).
Proof.
  unfold gathered.
  set (R := λ w, w ∈ Py.split text ∧ concept_like w).
  set (capital := λ (w : string) (concepts : list string), match w with
                  | String a _ => _ | EmptyString => false end).
  set (long := λ (w : string) (concepts : list string), _ && _).
  destruct (collect_ind R capital (Py.split text) []) as [Hnd1 HR1];
    [|constructor|constructor|].
  { intros w c Hw. unfold capital. destruct w as [|a rest]; [done|].
    intros [[Hup Hlen%bool_decide_eq_true]%andb_true_iff Hmem%negb_true_iff]%andb_true_iff.
    apply bool_decide_eq_false in Hmem. split; [done|]. split; [done|].
    left. by exists a, rest. }
  case_bool_decide; [|done]. apply collect_ind; [|done..].
  intros w c Hw. unfold long.
  intros [Hlen%bool_decide_eq_true Hmem%negb_true_iff]%andb_true_iff.
  apply bool_decide_eq_false in Hmem. split; [done|]. split; [done|]. by right.
Qed.

Lemma extract_concepts_NoDup text : NoDup (extract_concepts text).
Proof.
  rewrite extract_concepts_gathered.
  eapply sublist_NoDup; [apply gathered_spec|apply sublist_take].
Qed.

Lemma extract_concepts_length text : (length (extract_concepts text) ≤ 40)%nat.
Proof. rewrite extract_concepts_gathered, length_take. lia. Qed.

(** X3: [extract_concepts] returns at most 40 concepts, without
    repetition; each is a whitespace-separated word of the text that is
    either capitalised and longer than four characters or longer than
    seven characters. *)
Theorem extract_concepts_spec text :
  NoDup (extract_concepts text)
  ∧ (length (extract_concepts text) ≤ 40)%nat
  ∧ Forall (λ w, w ∈ Py.split text ∧ concept_like w) (extract_concepts text).
Proof.
  destruct (gathered_spec text) as [Hnd HR].
  rewrite extract_concepts_gathered. split_and!.
  - eapply sublist_NoDup; [done|apply sublist_take].
  - rewrite length_take. lia.
  - by apply Forall_take.
Qed.

(** ** The random helpers *)

Lemma randbelow_lt env k n : (0 < n)%nat → (randbelow env k n < n)%nat.
Proof. intros. unfold randbelow. apply Nat.mod_upper_bound. lia. Qed.

Lemma choice_elem env k l : l ≠ [] → (choice env k l).1 ∈ l.
Proof.
  intros Hl. unfold choice. simpl.
  destruct (lookup_lt_is_Some_2 l (randbelow env k (length l))) as [x Hx].
  { apply randbelow_lt. destruct l; [done|simpl; lia]. }
  rewrite Hx. simpl. by eapply list_elem_of_lookup_2.
Qed.

Lemma insert_Permutation_delete (l : list string) (j : nat) x y :
  l !! j = Some x → <[j := y]> l ≡ₚ y :: delete j l.
Proof.
  intros Hj. rewrite insert_take_drop by (by eapply lookup_lt_Some).
  by rewrite delete_take_drop, <- Permutation_middle.
Qed.

(** One turn of the pool: the item drawn and the items still in the
    pool are together the items that were in the pool. *)
Lemma pool_step (pool : list string) (m j : nat) x y :
  (j < S m)%nat → pool !! j = Some x → pool !! m = Some y →
  x :: take m (<[j := y]> pool) ≡ₚ take (S m) pool.
Proof.
  intros Hj Hx Hy. rewrite (take_S_r pool m y Hy).
  destruct (decide (j = m)) as [->|Hne].
  - simplify_eq. rewrite list_insert_id by done. apply Permutation_cons_append.
  - rewrite take_insert_lt by lia.
    rewrite insert_Permutation_delete with (x := x)
      by (rewrite lookup_take_lt by lia; done).
    rewrite Permutation_swap, <- Permutation_cons_append. f_equiv.
    symmetry. apply delete_Permutation. by rewrite lookup_take_lt by lia.
Qed.

Lemma sample_pool_spec env k pool m n picked k' :
  sample_pool env k pool m n = (picked, k') →
  (n ≤ m)%nat → (m ≤ length pool)%nat → NoDup (take m pool) →
  length picked = n ∧ NoDup picked ∧ picked ⊆ take m pool.
Proof.
  revert k pool m picked k'.
  induction n as [|n IH]; intros k pool m picked k' Hs Hn Hm Hnd;
    cbn [sample_pool] in Hs.
  { simplify_eq. split_and!; [done|constructor|by intros ? ?%elem_of_nil]. }
  destruct m as [|m]; [lia|].
  replace (S m - 1)%nat with m in Hs by lia.
  destruct (lookup_lt_is_Some_2 pool (randbelow env k (S m))) as [x Hx].
  { pose proof (randbelow_lt env k (S m)). lia. }
  destruct (lookup_lt_is_Some_2 pool m) as [y Hy]; [lia|].
  assert (default "" (pool !! m) = y) as Hdy by by rewrite Hy.
  assert (default "" (pool !! randbelow env k (S m)) = x) as Hdx by by rewrite Hx.
  rewrite Hdx, Hdy in Hs. clear Hdx Hdy.
  destruct (sample_pool env (S k) (<[randbelow env k (S m):=y]> pool) m n)
    as [rest k0] eqn:Hrest.
  simplify_eq.
  pose proof (pool_step pool m _ x y (randbelow_lt env k (S m) ltac:(lia)) Hx Hy)
    as Hperm.
  assert (NoDup (x :: take m (<[randbelow env k (S m):=y]> pool))) as Hnd'
    by by rewrite Hperm.
  apply NoDup_cons in Hnd' as [Hx' Hnd'].
  destruct (IH _ _ _ _ _ Hrest) as (Hlen & Hndr & Hsub); [lia| |done|].
  { rewrite length_insert. lia. }
  split_and!.
  - simpl. by rewrite Hlen.
  - apply NoDup_cons. split; [|done]. intros Hin. apply Hx'. by apply Hsub.
  - intros z Hz. rewrite <- Hperm. apply elem_of_cons in Hz as [->|Hz].
    + apply list_elem_of_here.
    + apply list_elem_of_further. by apply Hsub.
Qed.

Lemma draw_unselected_spec env fuel k n selected j k' :
  draw_unselected env fuel k n selected = Some (j, k') →
  (0 < n)%nat → (j ∉ selected) ∧ (j < n)%nat.
Proof.
  intros Hd Hn. revert k Hd. induction fuel as [|fuel IH]; intros k Hd; [done|].
  cbn [draw_unselected] in Hd. case_bool_decide as Hin; [by eapply IH|].
  simplify_eq. split; [done|]. by apply randbelow_lt.
Qed.

Lemma sample_set_spec env fuel k (l : list string) selected n picked k' :
  sample_set env fuel k l selected n = Some (picked, k') →
  (0 < length l)%nat → NoDup l →
  length picked = n ∧ NoDup picked
  ∧ Forall (λ x, ∃ j : nat, (j ∉ selected) ∧ l !! j = Some x) picked.
Proof.
  intros Hs Hl Hnd. revert k selected picked k' Hs.
  induction n as [|n IH]; intros k selected picked k' Hs; cbn [sample_set] in Hs.
  { simplify_eq. split_and!; [done|constructor|constructor]. }
  destruct (draw_unselected env fuel k (length l) selected) as [[j k1]|] eqn:Hdraw;
    [|done].
  destruct (sample_set env fuel k1 l ({[j]} ∪ selected) n) as [[rest k0]|] eqn:Hrest;
    [|done].
  simplify_eq.
  destruct (draw_unselected_spec _ _ _ _ _ _ _ Hdraw Hl) as [Hfresh Hlt].
  destruct (lookup_lt_is_Some_2 l j Hlt) as [x Hx]. rewrite Hx. simpl.
  destruct (IH _ _ _ _ Hrest) as (Hlen & Hndr & Hidx).
  rewrite Forall_forall in Hidx.
  split_and!.
  - simpl. by rewrite Hlen.
  - apply NoDup_cons. split; [|done]. intros Hin.
    destruct (Hidx x Hin) as (j' & Hj' & Hx').
    assert (j' = j) as -> by by apply (NoDup_lookup l j' j x).
    apply Hj'. apply elem_of_union_l. by apply elem_of_singleton.
  - constructor; [by exists j|]. apply Forall_forall. intros z Hz.
    destruct (Hidx z Hz) as (j' & Hj' & Hz'). exists j'. split; [|done].
    intros Hsel. apply Hj'. by apply elem_of_union_r.
Qed.

(** A sample of [n] out of at least [n] distinct strings: [n] distinct
    members of the population. *)
Lemma sample_spec env fuel k l n picked k' :
  sample env fuel k l n = Some (picked, k') →
  (n ≤ length l)%nat → NoDup l →
  length picked = n ∧ NoDup picked ∧ picked ⊆ l.
Proof.
  unfold sample. intros Hs Hn Hnd. case_bool_decide as Hsmall.
  - simplify_eq.
    destruct (sample_pool env k l (length l) n) as [picked0 k0] eqn:Hp.
    simplify_eq.
    destruct (sample_pool_spec _ _ _ _ _ _ _ Hp) as (?&?&Hsub);
      [done|done|by rewrite take_ge|].
    rewrite take_ge in Hsub by done. done.
  - destruct (sample_set_spec _ _ _ _ _ _ _ _ Hs) as (?&?&Hidx); [lia|done|].
    split_and!; [done..|]. intros x Hx. rewrite Forall_forall in Hidx.
    destruct (Hidx x Hx) as (j & _ & Hj). by eapply list_elem_of_lookup_2.
Qed.

Lemma shuffle_go_perm env k i l :
  (i < length l ∨ i = 0)%nat → (shuffle_go env k i l).1 ≡ₚ l.
Proof.
  revert k l. induction i as [|i IH]; intros k l Hi; cbn [shuffle_go]; [done|].
  destruct Hi as [Hi|?]; [|done].
  destruct (lookup_lt_is_Some_2 l (S i)) as [xi Hxi]; [done|].
  destruct (lookup_lt_is_Some_2 l (randbelow env k (S (S i)))) as [xj Hxj].
  { pose proof (randbelow_lt env k (S (S i))). lia. }
  rewrite Hxi, Hxj. simpl.
  rewrite IH; [by apply Permutation_insert_swap|].
  left. rewrite !length_insert. lia.
Qed.

Lemma shuffle_perm env k l : (shuffle env k l).1 ≡ₚ l.
Proof.
  unfold shuffle. apply shuffle_go_perm.
  destruct l; [by right|left; simpl; lia].
Qed.

(** ** The quizzes that the generator returns *)

(** [practice]: a quiz without a room; the value of its ["quiz"] field.
    Only the random source moves. *)
Definition practice (env : Env) (fuel : nat) (topic : string) (count : Z)
    (w : World) : option (list Question * World) :=
  match generate_mcqs env fuel (rng w) topic count with
  | None => None
  | Some (quiz0, k) =>
      Some (quiz0,
            {| rooms := rooms w; room_store := room_store w;
               list_store := list_store w; clock := clock w; rng := k |})
  end.

Record well_formed (sentences concepts : list string) (qu : Question) : Prop := {
  wf_four : length (options qu) = 4%nat;
  wf_distinct : NoDup (options qu);
  wf_answer : answer qu ∈ options qu;
  wf_options : options qu ⊆ concepts;
  wf_prompt :
    ∃ s, s ∈ sentences ∧ Py.contains (answer qu) s = true
         ∧ q qu = Py.replace s (answer qu) "_____" +:+ "?"
}.

Lemma mcq_loop_spec env fuel sentences concepts count quiz used k quiz' k' :
  sentences ≠ [] → NoDup concepts →
  Forall (well_formed sentences concepts) quiz →
  NoDup (answer <$> quiz) →
  (∀ qu, qu ∈ quiz → answer qu ∈ used) →
  mcq_loop env fuel sentences concepts count quiz used k = Some (quiz', k') →
  Forall (well_formed sentences concepts) quiz'
  ∧ NoDup (answer <$> quiz')
  ∧ Z.of_nat (length quiz') = Z.max count (Z.of_nat (length quiz)).
Proof.
  intros Hsent Hnd. revert quiz used k.
  induction fuel as [|fuel IH]; intros quiz used k Hwf Hans Hused Hloop; [done|].
  cbn [mcq_loop] in Hloop. case_bool_decide as Hlt; [|simplify_eq; split_and!; [done..|lia]].
  pose proof (choice_elem env k sentences Hsent) as Hs.
  destruct (choice env k sentences) as [s k1]. simpl in Hs.
  destruct (valid_concepts s used concepts) as [|ans valid] eqn:Hvalid.
  { destruct (IH _ _ _ Hwf Hans Hused Hloop) as (?&?&?). split_and!; [done..|lia]. }
  assert (ans ∈ valid_concepts s used concepts) as Hin
    by (rewrite Hvalid; apply list_elem_of_here).
  apply list_elem_of_filter in Hin as [[Hcont Hfresh] Hconc].
  case_bool_decide as Hfew.
  { apply IH in Hloop as (?&?&?); [|done..|].
    - split_and!; [done..|lia].
    - intros qu Hqu. apply elem_of_union_r. by apply Hused. }
  destruct (sample env fuel k1 (filter (λ c, c ≠ ans) concepts) 3)
    as [[picked k2]|] eqn:Hpick; [|done].
  pose proof (shuffle_perm env k2 (picked ++ [ans])) as Hperm.
  destruct (shuffle env k2 (picked ++ [ans])) as [opts k3]. simpl in Hperm.
  destruct (sample_spec _ _ _ _ _ _ _ Hpick) as (Hlen & Hndp & Hsub);
    [lia|by apply NoDup_filter|].
  assert (ans ∉ picked) as Hnot.
  { intros Hp. apply Hsub, list_elem_of_filter in Hp as [Hne _]. done. }
  apply IH in Hloop as (?&?&Hl); last first.
  - intros qu [Hqu| ->%list_elem_of_singleton]%elem_of_app.
    + apply elem_of_union_r. by apply Hused.
    + apply elem_of_union_l. by apply elem_of_singleton.
  - rewrite fmap_app. apply NoDup_app. split_and!; [done| |apply NoDup_singleton].
    intros x (qu & -> & Hqu)%list_elem_of_fmap Hin%list_elem_of_singleton.
    simpl in Hin. apply Hfresh. rewrite <- Hin. by apply Hused.
  - apply Forall_app. split; [done|]. constructor; [|done].
    split; simpl.
    + by rewrite Hperm, length_app, Hlen.
    + rewrite Hperm. apply NoDup_app. split_and!; [done| |apply NoDup_singleton].
      intros x Hx ->%list_elem_of_singleton. done.
    + rewrite Hperm. apply elem_of_app. right. apply list_elem_of_here.
    + intros o. rewrite Hperm. intros [Ho| ->%list_elem_of_singleton]%elem_of_app; [|done].
      by apply Hsub, list_elem_of_filter in Ho as [_ ?].
    + by exists s.
  - split_and!; [done..|]. rewrite length_app in Hl. simpl in Hl. lia.
Qed.

Lemma sentences_of_nonempty topic text : sentences_of topic text ≠ [].
Proof. unfold sentences_of. by case_match. Qed.

Lemma concepts_of_NoDup text : NoDup (concepts_of text).
Proof.
  unfold concepts_of. case_bool_decide; [|apply extract_concepts_NoDup].
  by apply (bool_decide_unpack (NoDup fallback_concepts)).
Qed.

Lemma concepts_of_length text : (length (concepts_of text) ≤ 40)%nat.
Proof.
  unfold concepts_of. case_bool_decide; [simpl; lia|apply extract_concepts_length].
Qed.

(** X4: when [generate_mcqs] returns, the quiz has exactly [count]
    questions (none for a count of zero or less); no two questions have
    the same answer; every question has four pairwise different options,
    all of them concepts of the cleaned text, its answer among them, and
    its prompt is one of the sentences of the cleaned text (or of the
    four stock sentences), containing the answer, in which the answer is
    blanked out, with a question mark appended. *)
Theorem generate_mcqs_quiz env fuel k topic count quiz k' :
  generate_mcqs env fuel k topic count = Some (quiz, k') →
  length quiz = Z.to_nat count
  ∧ NoDup (answer <$> quiz)
  ∧ Forall (λ qu,
      length (options qu) = 4%nat
      ∧ NoDup (options qu)
      ∧ answer qu ∈ options qu
      ∧ options qu ⊆ concepts_of (clean (wiki_text env topic))
      ∧ ∃ s, s ∈ sentences_of topic (clean (wiki_text env topic))
             ∧ Py.contains (answer qu) s = true
             ∧ q qu = Py.replace s (answer qu) "_____" +:+ "?") quiz.
Proof.
  unfold generate_mcqs. intros Hgen.
  apply mcq_loop_spec in Hgen as (Hwf & Hnd & Hlen);
    [|apply sentences_of_nonempty|apply concepts_of_NoDup|constructor..|by intros ? ?%elem_of_nil].
  split_and!; [simpl in Hlen; lia|done|].
  eapply Forall_impl; [exact Hwf|]. intros qu [H4 Hd Ha Ho (s & Hs & Hc & Hq)].
  split_and!; [done..|]. by exists s.
Qed.

(** As long as there are fewer concepts than questions asked for, the
    loop test stays true. *)
Lemma mcq_loop_starves env fuel sentences concepts count quiz used k :
  NoDup concepts →
  (length quiz ≤ size used)%nat →
  used ⊆ list_to_set concepts →
  Z.of_nat (length concepts) < count →
  mcq_loop env fuel sentences concepts count quiz used k = None.
Proof.
  intros Hnd. revert quiz used k.
  induction fuel as [|fuel IH]; intros quiz used k Hlen Hsub Hcount; [done|].
  cbn [mcq_loop].
  assert (size used ≤ length concepts)%nat as Hsize.
  { rewrite <- (size_list_to_set (C := gset string) concepts) by done.
    by apply subseteq_size. }
  rewrite bool_decide_eq_true_2 by lia.
  destruct (choice env k sentences) as [s k1].
  destruct (valid_concepts s used concepts) as [|ans valid] eqn:Hvalid.
  { by apply IH. }
  assert (ans ∈ valid_concepts s used concepts) as Hin
    by (rewrite Hvalid; apply list_elem_of_here).
  apply list_elem_of_filter in Hin as [[_ Hfresh] Hconc].
  assert (size ({[ans]} ∪ used) = S (size used)) as Hgrow.
  { rewrite size_union, size_singleton; [done|].
    intros x ->%elem_of_singleton. done. }
  assert ({[ans]} ∪ used ⊆ list_to_set (C := gset string) concepts) as Hsub'.
  { apply union_subseteq. split; [|done].
    apply singleton_subseteq_l. by apply elem_of_list_to_set. }
  case_bool_decide.
  { apply IH; [lia|done..]. }
  destruct (sample env fuel k1 _ 3) as [[picked k2]|]; [|done].
  destruct (shuffle env k2 _) as [opts k3].
  apply IH; [|done..]. rewrite length_app. simpl. lia.
Qed.

Lemma generate_mcqs_starves env fuel k topic count :
  40 < count → generate_mcqs env fuel k topic count = None.
Proof.
  intros Hc. unfold generate_mcqs.
  apply mcq_loop_starves; [apply concepts_of_NoDup|simpl; lia|apply empty_subseteq|].
  pose proof (concepts_of_length (clean (wiki_text env topic))). lia.
Qed.

(** X5: a request for more than 40 questions never comes back, from
    [create_room] as from [practice], whatever the topic, the source
    text and the random draws: every question uses up one of at most 40
    concepts, and the generator loop has no other way out. *)
Theorem more_than_40_questions_hang env fuel topic count w :
  40 < count →
  create_room env fuel topic count w = None
  ∧ practice env fuel topic count w = None.
Proof.
  intros Hc. split.
  - unfold create_room. destruct (choices env (rng w) alphabet 5) as [code k1].
    by rewrite generate_mcqs_starves.
  - unfold practice. by rewrite generate_mcqs_starves.
Qed.

(** ** The shape of reachable rooms *)

Definition names (r : Room) : list string := (students r).*1.

(** A record as [join_room] writes it. *)
Definition pristine (s : Student) : Prop :=
  score s = 0 ∧ answered s = false ∧ times s = [] ∧ q_start s = None.

Record student_ok (r : Room) (s : Student) : Prop := {
  sok_count : (length (times s) ≤ current r + (if answered s then 1 else 0))%nat;
  sok_answered :
    answered s = true →
    started r = true ∧ ended r = false ∧ (current r < length (quiz r))%nat;
  sok_score : 0 ≤ score s ≤ Z.of_nat (length (times s));
  sok_unstamped : q_start s = None → pristine s;
  sok_waiting : started r = false → q_start s = None
}.

Record room_ok (r : Room) : Prop := {
  rok_bound : (current r ≤ length (quiz r))%nat;
  rok_ended :
    ended r = true →
    started r = true ∧ current r = length (quiz r) ∧ quiz r ≠ []
    ∧ Forall (λ s, answered s = false) (studs r);
  rok_active : ended r = false → quiz r ≠ [] → (current r < length (quiz r))%nat;
  rok_duration : duration r = 30;
  rok_waiting : started r = false → start_time r = None ∧ current r = 0%nat;
  rok_started : started r = true → is_Some (start_time r);
  rok_names : NoDup (names r);
  rok_students : Forall (student_ok r) (studs r)
}.

Record shape (w : World) : Prop := {
  shape_rooms : Forall room_ok (room_store w);
  shape_bound : ∀ c ρ, rooms w !! c = Some ρ → (ρ < length (room_store w))%nat
}.

(** The two record updates of the loops over students. *)
Definition stamped (t : Q) (s : Student) : Student :=
  {| score := score s; answered := answered s; times := times s;
     answers := answers s; q_start := Some t |}.

Definition expired (dur : Z) (t : Q) (s : Student) : Student :=
  {| score := score s; answered := false;
     times := if answered s then times s else times s ++ [dur];
     answers := answers s; q_start := Some t |}.

Lemma stamp_each env k d d' k' :
  stamp env k d = (d', k') →
  Forall2 (λ ns ns', ns'.1 = ns.1 ∧ ∃ t, ns'.2 = stamped t ns.2) d d'.
Proof.
  revert k d' k'. induction d as [|[n s] d IH]; intros k d' k' Hst.
  { simplify_eq/=. constructor. }
  cbn [stamp] in Hst.
  destruct (stamp env (S k) d) as [d0 k0] eqn:Hd. simplify_eq.
  constructor; [|by eapply IH]. split; [done|]. by eexists.
Qed.

Lemma expire_each env qu dur d h k d' h' k' :
  expire env qu dur d h k = (d', h', k') →
  Forall2 (λ ns ns', ns'.1 = ns.1 ∧ ∃ t, ns'.2 = expired dur t ns.2) d d'.
Proof.
  revert h k d' h' k'. induction d as [|[n s] d IH]; intros h k d' h' k' Hex.
  { simplify_eq/=. constructor. }
  cbn [expire] in Hex.
  destruct (answered s) eqn:Hans;
    match type of Hex with
    | context [expire env qu dur d ?h1 (S k)] =>
        destruct (expire env qu dur d h1 (S k)) as [[d0 h0] k0] eqn:Hd
    end;
    simplify_eq; (constructor; [|by eapply IH]); (split; [done|]);
    eexists; unfold expired; simpl; by rewrite Hans.
Qed.

Lemma each_names (f : Student → Student → Prop) d d' :
  Forall2 (λ ns ns' : string * Student, ns'.1 = ns.1 ∧ f ns.2 ns'.2) d d' →
  d'.*1 = d.*1.
Proof.
  induction 1 as [|[n s] [n' s'] d d' [Hn _] _ IH]; [done|].
  rewrite !fmap_cons, IH. simpl in *. by rewrite Hn.
Qed.

Lemma each_Forall (f : Student → Student → Prop) (P P' : Student → Prop) d d' :
  Forall2 (λ ns ns' : string * Student, ns'.1 = ns.1 ∧ f ns.2 ns'.2) d d' →
  (∀ s s', f s s' → P s → P' s') →
  Forall P d.*2 → Forall P' d'.*2.
Proof.
  intros H Hf. induction H as [|[n s] [n' s'] d d' [_ Hs] _ IH]; [done|].
  rewrite !fmap_cons. intros [Hp Hrest]%Forall_cons.
  constructor; [by eapply Hf|by apply IH].
Qed.

Lemma dict_get_None name d : dict_get name d = None ↔ name ∉ d.*1.
Proof.
  induction d as [|[n s] d IH].
  { split; [intros _ ?%elem_of_nil|]; done. }
  cbn [dict_get]. rewrite fmap_cons, not_elem_of_cons. simpl.
  destruct (decide (n = name)) as [->|Hne].
  - split; [done|]. by intros [? _].
  - rewrite IH. split; [by split|by intros [_ ?]].
Qed.

Lemma dict_set_names name s d :
  (dict_set name s d).*1
  = if bool_decide (name ∈ d.*1) then d.*1 else d.*1 ++ [name].
Proof.
  induction d as [|[n s0] d IH]; [done|].
  cbn [dict_set]. destruct (decide (n = name)) as [->|Hne].
  - rewrite !fmap_cons. simpl. rewrite bool_decide_eq_true_2; [done|].
    apply list_elem_of_here.
  - rewrite !fmap_cons, IH. simpl. case_bool_decide as Hin.
    + rewrite bool_decide_eq_true_2; [done|]. by apply list_elem_of_further.
    + rewrite bool_decide_eq_false_2; [done|].
      by intros [?|?]%elem_of_cons.
Qed.

Lemma dict_set_NoDup name s d : NoDup d.*1 → NoDup (dict_set name s d).*1.
Proof.
  intros Hnd. rewrite dict_set_names. case_bool_decide as Hin; [done|].
  apply NoDup_app. split_and!; [done| |apply NoDup_singleton].
  intros x Hx ->%list_elem_of_singleton. done.
Qed.

Lemma dict_set_Forall (P : Student → Prop) name s d :
  Forall P d.*2 → P s → Forall P (dict_set name s d).*2.
Proof.
  intros Hd Hs. induction d as [|[n s0] d IH]; [by repeat constructor|].
  cbn [dict_set]. rewrite fmap_cons in Hd. apply Forall_cons in Hd as [H0 Hd].
  destruct (decide (n = name)); rewrite fmap_cons; constructor; auto.
Qed.

Lemma dict_get_set_ne name n s d :
  n ≠ name → dict_get n (dict_set name s d) = dict_get n d.
Proof.
  intros Hne. induction d as [|[n0 s0] d IH]; simpl.
  { by rewrite decide_False. }
  destruct (decide (n0 = name)) as [->|]; simpl.
  - by rewrite !decide_False.
  - by rewrite IH.
Qed.

Lemma shape_same w w' :
  rooms w' = rooms w → room_store w' = room_store w → shape w → shape w'.
Proof. intros Hr Hs [H1 H2]. split; rewrite ?Hr, Hs; done. Qed.

Lemma shape_update w w' ρ r r' :
  shape w → room_store w !! ρ = Some r → room_ok r' →
  rooms w' = rooms w → room_store w' = <[ρ := r']> (room_store w) →
  shape w'.
Proof.
  intros [H1 H2] Hρ Hok Hr Hs. split; rewrite ?Hr, Hs.
  - by apply Forall_insert.
  - intros c ρ' Hc. rewrite length_insert. by eapply H2.
Qed.

Lemma shape_room w ρ r : shape w → room_store w !! ρ = Some r → room_ok r.
Proof. intros [H1 _] Hρ. rewrite Forall_forall in H1. apply H1. by eapply list_elem_of_lookup_2. Qed.

Lemma room_student r name s :
  room_ok r → dict_get name (students r) = Some s → student_ok r s.
Proof.
  intros Hok Hs. pose proof (rok_students _ Hok) as H.
  rewrite Forall_forall in H. apply H. by eapply dict_get_elem.
Qed.

Lemma join_room_shape room name w : shape w → shape (join_room room name w).2.
Proof.
  intros Hw. unfold join_room.
  destruct (get_room w room) as [[ρ r]|] eqn:Hr; [|done].
  apply get_room_Some in Hr as [_ Hρ].
  pose proof (shape_room _ _ _ Hw Hρ) as [Hb He Ha Hd Hwt Hst Hn Hs].
  eapply shape_update; [done..| |done|done].
  split; simpl; try done.
  - intros Hend. destruct (He Hend) as (?&?&?&Hans). split_and!; [done..|].
    by apply dict_set_Forall.
  - by apply dict_set_NoDup.
  - apply dict_set_Forall.
    + eapply Forall_impl; [exact Hs|]. by intros s [].
    + split; simpl; [lia|done|lia|done|done].
Qed.

Lemma start_quiz_shape env room w : shape w → shape (start_quiz env room w).2.
Proof.
  intros Hw. unfold start_quiz.
  destruct (get_room w room) as [[ρ r]|] eqn:Hr; [|done].
  apply get_room_Some in Hr as [_ Hρ].
  pose proof (shape_room _ _ _ Hw Hρ) as [Hb He Ha Hd Hwt Hst Hn Hs].
  destruct (stamp env (S (clock w)) (students r)) as [d k] eqn:Hstamp.
  pose proof (stamp_each _ _ _ _ _ Hstamp) as Heach.
  eapply shape_update; [done..| |done|done].
  split; simpl; try done.
  - intros Hend. destruct (He Hend) as (?&?&?&Hans). split_and!; [done..|].
    eapply (each_Forall (λ s s', ∃ t, s' = stamped t s) _ _ _ _ Heach);
      [|exact Hans].
    by intros s s' [t ->].
  - unfold names. simpl.
    by rewrite (each_names (λ s s', ∃ t, s' = stamped t s) _ _ Heach).
  - eapply (each_Forall (λ s s', ∃ t, s' = stamped t s) _ _ _ _ Heach);
      [|exact Hs].
    intros s s' [t ->] [H1 H2 H3 H4 H5]. split; simpl; try done.
    intros Hans. by destruct (H2 Hans) as (_&?&?).
Qed.

Lemma submit_shape env room name ans w :
  shape w → shape (submit env room name ans w).2.
Proof.
  intros Hw. unfold submit.
  destruct (get_room w room) as [[ρ r]|] eqn:Hr; [|done].
  apply get_room_Some in Hr as [_ Hρ].
  destruct (dict_get name (students r)) as [s|] eqn:Hget; [|done].
  destruct (answered s) eqn:Hans; [done|].
  destruct (quiz r !! current r) as [qu|] eqn:Hqu; [|done].
  destruct (q_start s) as [t|] eqn:Hq; [|by apply (shape_same w)].
  pose proof (shape_room _ _ _ Hw Hρ) as Hok.
  pose proof (room_student _ _ _ Hok Hget) as [H1 H2 H3 H4 H5].
  destruct Hok as [Hb He Ha Hd Hwt Hst Hn Hs].
  apply lookup_lt_Some in Hqu.
  assert (started r = true) as Hstarted.
  { destruct (started r); [done|]. rewrite H5 in Hq; done. }
  assert (ended r = false) as Hended.
  { destruct (ended r); [|done]. destruct He as (_&?&_); [done|lia]. }
  rewrite Hans in H1.
  eapply shape_update; [done..| |done|done].
  split; simpl; try done.
  - by rewrite Hended.
  - by apply dict_set_NoDup.
  - apply dict_set_Forall.
    + eapply Forall_impl; [exact Hs|]. by intros s0 [].
    + split; simpl; try done.
      * rewrite length_app. simpl. lia.
      * rewrite length_app. simpl. case_bool_decide; lia.
      * by rewrite Hstarted.
Qed.

Lemma expired_ok r r' dur t s :
  student_ok r s →
  current r' = S (current r) → started r' = true →
  student_ok r' (expired dur t s).
Proof.
  intros [H1 H2 H3 H4 H5] Hc Hs. split; simpl; try done.
  - rewrite Hc. destruct (answered s); [|rewrite length_app; simpl]; lia.
  - destruct (answered s); [done|]. rewrite length_app. simpl. lia.
  - by rewrite Hs.
Qed.

Lemma state_shape env room w : shape w → shape (state env room w).2.
Proof.
  intros Hw. unfold state.
  destruct (get_room w room) as [[ρ r]|] eqn:Hr; [|done].
  apply get_room_Some in Hr as [_ Hρ].
  destruct (ended r) eqn:Hended; [done|].
  destruct (started r) eqn:Hstarted; [|done]. cbn [negb].
  destruct (start_time r) as [t0|] eqn:Ht0; [|by apply (shape_same w)].
  case_bool_decide;
    [|rewrite active_snapshot_world; by apply (shape_same w)].
  destruct (quiz r !! current r) as [qu|] eqn:Hqu; [|by apply (shape_same w)].
  destruct (expire env qu (duration r) (students r) (list_store w)
              (S (clock w))) as [[d h] k] eqn:Hex.
  pose proof (expire_each _ _ _ _ _ _ _ _ _ Hex) as Heach.
  pose proof (shape_room _ _ _ Hw Hρ) as [Hb He Ha Hd Hwt Hst Hn Hs].
  apply lookup_lt_Some in Hqu.
  assert (d.*1 = names r) as Hnames.
  { apply (each_names (λ s s', ∃ t, s' = expired (duration r) t s) _ _ Heach). }
  assert (Forall (λ s, answered s = false) d.*2) as Hcleared.
  { eapply (each_Forall (λ s s', ∃ t, s' = expired (duration r) t s)
              (λ _, True) _ _ _ Heach).
    - by intros s s' [t ->] _.
    - by apply Forall_true. }
  case_bool_decide as Hlast; [|rewrite active_snapshot_world];
    (eapply shape_update; [done..| |done|done]);
    (split; simpl; try done; try lia).
  - intros _. split_and!; [done|lia| |exact Hcleared].
    intros Hq. rewrite Hq in Hqu. simpl in Hqu. lia.
  - unfold names. simpl. by rewrite Hnames.
  - eapply (each_Forall (λ s s', ∃ t, s' = expired (duration r) t s) _ _ _ _ Heach);
      [|exact Hs].
    intros s s' [t ->] Hok. by eapply expired_ok.
  - unfold names. simpl. by rewrite Hnames.
  - eapply (each_Forall (λ s s', ∃ t, s' = expired (duration r) t s) _ _ _ _ Heach);
      [|exact Hs].
    intros s s' [t ->] Hok. by eapply expired_ok.
Qed.

Lemma create_room_shape env fuel topic count w o w' :
  create_room env fuel topic count w = Some (o, w') → shape w → shape w'.
Proof.
  unfold create_room. intros Hcr [H1 H2].
  destruct (choices env (rng w) alphabet 5) as [code k1].
  destruct (generate_mcqs env fuel k1 topic count) as [[quiz0 k2]|]; [|done].
  simplify_eq. split; simpl.
  - apply Forall_app. split; [done|]. constructor; [|done].
    split; simpl; try done; try lia; try constructor.
    intros _ Hq. destruct quiz0; [done|simpl; lia].
  - intros c ρ. rewrite length_app. simpl.
    rewrite lookup_insert. case_decide.
    + intros [= <-]. lia.
    + intros Hc. apply H2 in Hc. lia.
Qed.

Lemma step_shape env w w' : step env w w' → shape w → shape w'.
Proof.
  intros (fuel & req & o & Hh) Hw. destruct req; simpl in Hh.
  - by eapply create_room_shape.
  - simplify_eq. replace w' with (join_room room name w).2 by by rewrite Hh.
    by apply join_room_shape.
  - simplify_eq. replace w' with (start_quiz env room w).2 by by rewrite Hh.
    by apply start_quiz_shape.
  - simplify_eq. replace w' with (submit env room name ans w).2 by by rewrite Hh.
    by apply submit_shape.
  - simplify_eq. replace w' with (state env room w).2 by by rewrite Hh.
    by apply state_shape.
Qed.

Lemma reachable_shape env w : reachable env w → shape w.
Proof.
  intros Hr.
  apply (rtc_ind_r (R := step env) shape boot); [| |exact Hr].
  - split; [constructor|]. intros c ρ. simpl. by rewrite lookup_empty.
  - intros y z _ Hstep IH. by eapply step_shape.
Qed.

(** In a reachable world a code is bound exactly when [rooms.get] finds a
    room. *)
Lemma get_room_None w code :
  shape w → get_room w code = None ↔ rooms w !! code = None.
Proof.
  intros [_ Hb]. unfold get_room. destruct (rooms w !! code) as [ρ|] eqn:Hc; simpl.
  - destruct (lookup_lt_is_Some_2 (room_store w) ρ) as [r Hr]; [by eapply Hb|].
    rewrite Hr. done.
  - done.
Qed.

(** X6: in every reachable world the index of a room stays within the
    quiz ([current <= len(quiz)]); a room is ended exactly when it has
    at least one question and [current] equals the number of questions;
    an ended room has been started; the time box is 30 seconds. *)
Theorem room_progress_bounds env w ρ r :
  reachable env w → room_store w !! ρ = Some r →
  (current r ≤ length (quiz r))%nat
  ∧ (ended r = true ↔ quiz r ≠ [] ∧ current r = length (quiz r))
  ∧ (ended r = true → started r = true)
  ∧ duration r = 30.
Proof.
  intros Hw%reachable_shape Hρ.
  destruct (shape_room _ _ _ Hw Hρ) as [Hb He Ha Hd _ _ _ _].
  split_and!; [done| |by intros (?&_)%He|done].
  split.
  - by intros (_&?&?&_)%He.
  - intros [Hq Hc]. destruct (ended r); [done|]. specialize (Ha eq_refl Hq). lia.
Qed.

(** X7: in every reachable world a participant has at most one recorded
    time per question reached ([current] of them, plus one once the
    active question is answered), never more than the quiz has questions,
    and a score between 0 and the number of recorded times. *)
Theorem student_record_bounds env w ρ r name s :
  reachable env w → room_store w !! ρ = Some r →
  dict_get name (students r) = Some s →
  (length (times s) ≤ current r + (if answered s then 1 else 0))%nat
  ∧ (length (times s) ≤ length (quiz r))%nat
  ∧ 0 ≤ score s ≤ Z.of_nat (length (times s)).
Proof.
  intros Hw%reachable_shape Hρ Hs.
  pose proof (shape_room _ _ _ Hw Hρ) as Hok.
  destruct (room_student _ _ _ Hok Hs) as [H1 H2 H3 _ _].
  split_and!; [done| |lia..].
  pose proof (rok_bound _ Hok).
  destruct (answered s); [|lia]. destruct H2 as (_&_&?); [done|lia].
Qed.

(** X8: as long as a room has not been started nothing is recorded in
    it: the index is 0, the room is not ended, no start time is set, and
    every participant still has the record [join_room] wrote (score 0,
    no times, not answered, no question timer). *)
Theorem nothing_recorded_before_start env w ρ r :
  reachable env w → room_store w !! ρ = Some r → started r = false →
  current r = 0%nat ∧ ended r = false ∧ start_time r = None
  ∧ Forall pristine (studs r).
Proof.
  intros Hw%reachable_shape Hρ Hst.
  destruct (shape_room _ _ _ Hw Hρ) as [_ He _ _ Hwt _ _ Hs].
  destruct (Hwt Hst) as [Ht Hc]. split_and!; [done| |done|].
  - destruct (ended r); [|done]. destruct He as (?&_); [done|congruence].
  - eapply Forall_impl; [exact Hs|]. intros s [_ _ _ H4 H5]. by apply H4, H5.
Qed.

Lemma entry_names d : Entry.name <$> (entry <$> d) = d.*1.
Proof. rewrite <- list_fmap_compose. by apply list_fmap_ext. Qed.

(** X9: in every reachable world the participants of a room have
    pairwise different names, so the leaderboard an inspection returns
    names every participant exactly once, and the participant list of a
    room that is still waiting is the list of names in joining order. *)
Theorem participants_listed_once env room w ρ r resp w' :
  reachable env w → get_room w room = Some (ρ, r) →
  state env room w = (Return resp, w') →
  NoDup (names r)
  ∧ (∀ board, leaderboard_of resp = Some board →
       Entry.name <$> board ≡ₚ names r ∧ NoDup (Entry.name <$> board))
  ∧ (∀ listed, resp = RWaiting listed → listed = names r).
Proof.
  intros Hw%reachable_shape Hr Hst.
  pose proof (get_room_Some _ _ _ _ Hr) as [_ Hρ].
  pose proof (rok_names _ (shape_room _ _ _ Hw Hρ)) as Hnd.
  split_and!; [done| |].
  - intros board Hb.
    destruct (state_board _ _ _ _ _ _ Hst Hb) as (ρ' & r' & Hr' & ->).
    rewrite Hr in Hr'. simplify_eq.
    assert (Entry.name <$> sorted (entry <$> students r') ≡ₚ names r') as Hp.
    { rewrite sorted_perm. by rewrite entry_names. }
    split; [done|]. by rewrite Hp.
  - intros listed ->. unfold state, active_snapshot in Hst. rewrite Hr in Hst.
    repeat case_match; by simplify_eq.
Qed.

(** X10: in a reachable world an inspection raises in exactly one
    situation: the room exists, has been started and its quiz is empty;
    the exception is then [IndexError].  In particular an inspection of
    a room with at least one question always returns a snapshot. *)
Theorem state_raises_iff_empty_quiz env room w e :
  reachable env w →
  (state env room w).1 = Raise e ↔
  e = IndexError
  ∧ ∃ ρ r, get_room w room = Some (ρ, r) ∧ started r = true ∧ quiz r = [].
Proof.
  intros Hw%reachable_shape. split.
  - unfold state. destruct (get_room w room) as [[ρ r]|] eqn:Hr; [|done].
    pose proof (get_room_Some _ _ _ _ Hr) as [_ Hρ].
    destruct (shape_room _ _ _ Hw Hρ) as [_ _ Ha _ _ Hst _ _].
    destruct (ended r) eqn:Hended; [done|].
    destruct (started r) eqn:Hstarted; [|done]. cbn [negb].
    destruct (start_time r) as [t0|]; [|by destruct Hst].
    assert (quiz r !! current r = None → quiz r = []) as Hempty.
    { intros Hnone%lookup_ge_None.
      destruct (quiz r) as [|q0 qs] eqn:Hq; [done|].
      specialize (Ha eq_refl ltac:(done)). lia. }
    case_bool_decide.
    + destruct (quiz r !! current r) as [qu|] eqn:Hqu.
      * destruct (expire _ _ _ _ _ _) as [[d h] k].
        case_bool_decide as Hlast; [done|]. unfold active_snapshot. simpl.
        destruct (quiz r !! S (current r)) eqn:Hnext; [done|].
        apply lookup_ge_None in Hnext. lia.
      * simpl. intros [= <-]. split; [done|]. exists ρ, r. auto.
    + unfold active_snapshot.
      destruct (quiz r !! current r) as [qu|] eqn:Hqu; [done|].
      simpl. intros [= <-]. split; [done|]. exists ρ, r. auto.
  - intros (-> & ρ & r & Hr & Hstarted & Hq).
    pose proof (get_room_Some _ _ _ _ Hr) as [_ Hρ].
    destruct (shape_room _ _ _ Hw Hρ) as [_ He _ _ _ Hst _ _].
    destruct (Hst Hstarted) as [t0 Ht0].
    assert (ended r = false) as Hended.
    { destruct (ended r); [|done]. by destruct He as (_&_&?&_). }
    by rewrite (state_empty_quiz env room w ρ r t0).
Qed.

(** X11: in a reachable world a submission by a participant of a room
    is accepted only while the room is active.  Before the start it
    always raises; after the end it always raises [IndexError] and
    changes nothing; and whenever [submit] answers ok the room is
    started, not ended, and [current] is the index of a question. *)
Theorem submit_needs_active_room env room name ans w ρ r s :
  reachable env w →
  get_room w room = Some (ρ, r) → dict_get name (students r) = Some s →
  (started r = false → ∃ e, (submit env room name ans w).1 = Raise e)
  ∧ (ended r = true → submit env room name ans w = (Raise IndexError, w))
  ∧ ((submit env room name ans w).1 = Return ROk →
     started r = true ∧ ended r = false ∧ (current r < length (quiz r))%nat).
Proof.
  intros Hw%reachable_shape Hr Hs.
  pose proof (get_room_Some _ _ _ _ Hr) as [_ Hρ].
  pose proof (shape_room _ _ _ Hw Hρ) as Hok.
  destruct (room_student _ _ _ Hok Hs) as [_ H2 _ H4 H5].
  destruct Hok as [_ He _ _ _ _ _ _].
  unfold submit. rewrite Hr, Hs. split_and!.
  - intros Hst. destruct (H4 (H5 Hst)) as (_ & -> & _ & Hq).
    destruct (quiz r !! current r); [|by eexists].
    rewrite Hq. by eexists.
  - intros Hend. destruct (He Hend) as (_ & Hc & _ & Hans).
    rewrite Forall_forall in Hans. rewrite (Hans s) by by eapply dict_get_elem.
    by rewrite lookup_ge_None_2 by lia.
  - destruct (answered s) eqn:Hans; [by intros _; apply H2|].
    destruct (quiz r !! current r) as [qu|] eqn:Hqu; [|done].
    destruct (q_start s) as [t|] eqn:Hq; [|done]. intros _.
    apply lookup_lt_Some in Hqu. split_and!; [| |done].
    + destruct (started r); [done|]. by specialize (H5 eq_refl).
    + destruct (ended r); [|done]. destruct He as (_&?&_); [done|lia].
Qed.

Lemma get_room_set_clock w code k :
  get_room (set_clock k w) code = get_room w code.
Proof. done. Qed.

(** X12: in a reachable world every ACTIVE snapshot shows a positive
    remaining time and a question number between 1 and the total; its
    text and options are those of the question at the room's index as
    the call leaves it, in a room that is started and not ended. *)
Theorem active_snapshot_fields env room w text opts remaining qno total board w' :
  reachable env w →
  state env room w = (Return (RActive text opts remaining qno total board), w') →
  0 < remaining ∧ (1 ≤ qno ≤ total)%nat
  ∧ ∃ ρ r' qu,
      get_room w' room = Some (ρ, r')
      ∧ started r' = true ∧ ended r' = false
      ∧ qno = S (current r') ∧ total = length (quiz r')
      ∧ quiz r' !! current r' = Some qu
      ∧ text = q qu ∧ opts = options qu.
Proof.
  intros Hw%reachable_shape. unfold state.
  destruct (get_room w room) as [[ρ r]|] eqn:Hr; [|done].
  pose proof (get_room_Some _ _ _ _ Hr) as [_ Hρ].
  destruct (shape_room _ _ _ Hw Hρ) as [_ _ _ Hd _ _ _ _].
  destruct (ended r) eqn:Hended; [done|].
  destruct (started r) eqn:Hstarted; [|done]. cbn [negb].
  destruct (start_time r) as [t0|]; [|done].
  case_bool_decide as Hrem.
  - destruct (quiz r !! current r) as [qu|] eqn:Hqu; [|done].
    destruct (expire _ _ _ _ _ _) as [[d h] k].
    case_bool_decide as Hlast; [done|]. unfold active_snapshot. simpl.
    destruct (quiz r !! S (current r)) as [qn|] eqn:Hnext; [|done].
    intros [= <- <- <- <- <- <- <-].
    pose proof (lookup_lt_Some _ _ _ Hnext).
    split_and!; [lia..|].
    eexists ρ, _, qn. split; [by eapply get_room_set_room|].
    simpl. split_and!; try done; lia.
  - unfold active_snapshot.
    destruct (quiz r !! current r) as [qu|] eqn:Hqu; [|done].
    intros [= <- <- <- <- <- <- <-].
    pose proof (lookup_lt_Some _ _ _ Hqu).
    split_and!; [lia..|].
    exists ρ, r, qu. rewrite get_room_set_clock.
    split_and!; try done; lia.
Qed.

(** ** What one request can change *)

Definition is_state (req : Request) : Prop :=
  match req with State _ => True | _ => False end.

(** How a room object may differ after a request has been handled. *)
Definition evolves (req : Request) (r r' : Room) : Prop :=
  quiz r' = quiz r ∧ duration r' = duration r
  ∧ (started r = true → started r' = true)
  ∧ (current r' = current r
     ∨ (current r' = S (current r) ∧ is_state req
        ∧ started r = true ∧ ended r = false)).

Lemma evolves_refl req r : evolves req r r.
Proof. split_and!; auto. Qed.

Lemma store_insert_evolves req (rs : list Room) (ρ0 : nat) r0 r0' (ρ : nat) r :
  rs !! ρ0 = Some r0 → evolves req r0 r0' → rs !! ρ = Some r →
  ∃ r', <[ρ0 := r0']> rs !! ρ = Some r' ∧ evolves req r r'.
Proof.
  intros H0 Hev Hr. destruct (decide (ρ = ρ0)) as [->|Hne].
  - simplify_eq. exists r0'. split; [|done].
    apply list_lookup_insert_eq. by eapply lookup_lt_Some.
  - exists r. split; [|apply evolves_refl]. by rewrite list_lookup_insert_ne.
Qed.

(** X13: handling one request leaves the quiz and the time box of every
    room as they are and never un-starts a room; the index of a room
    changes only through an inspection of a started, not ended room, and
    then by exactly one, however long ago the window expired. *)
Theorem one_request_one_advance env fuel req w o w' ρ r :
  handle env fuel req w = Some (o, w') →
  room_store w !! ρ = Some r →
  ∃ r', room_store w' !! ρ = Some r'
    ∧ quiz r' = quiz r ∧ duration r' = duration r
    ∧ (started r = true → started r' = true)
    ∧ (current r' = current r
       ∨ (current r' = S (current r) ∧ is_state req
          ∧ started r = true ∧ ended r = false)).
Proof.
  intros Hh Hρ.
  enough (∃ r', room_store w' !! ρ = Some r' ∧ evolves req r r') as (r' & ? & ?)
    by by exists r'.
  assert (∃ r', room_store w !! ρ = Some r' ∧ evolves req r r') as Hsame
    by (exists r; split; [done|apply evolves_refl]).
  destruct req as [topic count|room name|room|room name ans|room]; simpl in Hh.
  - unfold create_room in Hh.
    destruct (choices env (rng w) alphabet 5) as [code k1].
    destruct (generate_mcqs env fuel k1 topic count) as [[quiz0 k2]|]; [|done].
    simplify_eq. simpl. exists r. split; [|apply evolves_refl].
    rewrite lookup_app_l; [done|by eapply lookup_lt_Some].
  - unfold join_room in Hh.
    destruct (get_room w room) as [[ρ0 r0]|] eqn:Hr; simplify_eq; [|done].
    apply get_room_Some in Hr as [_ Hρ0]. simpl.
    eapply store_insert_evolves; [done| |done]. split_and!; auto.
  - unfold start_quiz in Hh.
    destruct (get_room w room) as [[ρ0 r0]|] eqn:Hr; simplify_eq; [|done].
    apply get_room_Some in Hr as [_ Hρ0].
    destruct (stamp env (S (clock w)) (students r0)) as [d k].
    simplify_eq. simpl.
    eapply store_insert_evolves; [done| |done]. split_and!; auto.
  - unfold submit in Hh.
    destruct (get_room w room) as [[ρ0 r0]|] eqn:Hr; simplify_eq; [|done].
    apply get_room_Some in Hr as [_ Hρ0].
    repeat case_match; simplify_eq; try done; simpl;
      (eapply store_insert_evolves; [done| |done]); split_and!; auto.
  - unfold state in Hh.
    destruct (get_room w room) as [[ρ0 r0]|] eqn:Hr; simplify_eq; [|done].
    apply get_room_Some in Hr as [_ Hρ0].
    destruct (ended r0) eqn:He; simplify_eq; [done|].
    destruct (started r0) eqn:Hs; cbn [negb] in Hh; simplify_eq; [|done].
    destruct (start_time r0) as [t0|]; simplify_eq; [|done].
    case_bool_decide.
    2: { replace w' with (active_snapshot r0
           (duration r0 - Py.int (time_time env (clock w) - t0))
           (sorted (entry <$> students r0)) (set_clock (S (clock w)) w)).2
           by by rewrite Hh.
         by rewrite active_snapshot_world. }
    destruct (quiz r0 !! current r0) as [qu|]; simplify_eq; [|done].
    destruct (expire env qu (duration r0) (students r0) (list_store w)
                (S (clock w))) as [[d h] k].
    case_bool_decide; simplify_eq.
    + simpl. eapply store_insert_evolves; [done| |done].
      split_and!; simpl; auto.
    + match type of Hh with
      | active_snapshot ?r2 ?rem ?b ?w2 = _ =>
          replace w' with (active_snapshot r2 rem b w2).2 by by rewrite Hh
      end.
      rewrite active_snapshot_world. simpl.
      eapply store_insert_evolves; [done| |done].
      split_and!; simpl; auto.
Qed.

(** ** Creating and joining rooms *)

Lemma choices_spec env k (letters : list ascii) n :
  letters ≠ [] →
  length (choices env k letters n).1 = n
  ∧ Forall (λ a, a ∈ letters) (choices env k letters n).1.
Proof.
  intros Hl. revert k. induction n as [|n IH]; intros k; cbn [choices]; [done|].
  destruct (choices env (S k) letters n) as [rest k0] eqn:Hrest.
  specialize (IH (S k)). rewrite Hrest in IH. destruct IH as [IH1 IH2]. simpl in *.
  destruct (lookup_lt_is_Some_2 letters (randbelow env k (length letters)))
    as [a Ha].
  { apply randbelow_lt. destruct letters; [done|simpl; lia]. }
  rewrite Ha. simpl. split; [by rewrite IH1|].
  constructor; [by eapply list_elem_of_lookup_2|done].
Qed.

Lemma len_str l : Py.len (Py.str l) = length l.
Proof. unfold Py.len, Py.str. induction l; simpl; by f_equal. Qed.

Lemma generate_mcqs_length env fuel k topic count quiz0 k' :
  generate_mcqs env fuel k topic count = Some (quiz0, k') →
  length quiz0 = Z.to_nat count.
Proof.
  unfold generate_mcqs. intros Hgen.
  apply mcq_loop_spec in Hgen as (_ & _ & Hlen);
    [|apply sentences_of_nonempty|apply concepts_of_NoDup|constructor..|by intros ? ?%elem_of_nil].
  simpl in Hlen. lia.
Qed.

(** X14: when [create_room] returns, its result is a code of five
    characters of the unambiguous alphabet, bound to a new room that
    holds [count] questions, has no participants and waits at index 0
    with a 30 second time box; an inspection of it shows the empty
    waiting snapshot.  Existing room objects, the bindings of all other
    codes, the answer lists and the clock are untouched. *)
Theorem create_room_fresh env fuel topic count w o w' :
  create_room env fuel topic count w = Some (o, w') →
  ∃ code quiz0,
    o = Return (RRoom code)
    ∧ Py.len code = 5%nat
    ∧ Forall (λ a, a ∈ alphabet) (Py.chars code)
    ∧ get_room w' code
      = Some (length (room_store w),
              {| quiz := quiz0; students := []; current := 0; started := false;
                 ended := false; duration := 30; start_time := None |})
    ∧ length quiz0 = Z.to_nat count
    ∧ state env code w' = (Return (RWaiting []), w')
    ∧ (∀ ρ r, room_store w !! ρ = Some r → room_store w' !! ρ = Some r)
    ∧ (∀ c, c ≠ code → rooms w' !! c = rooms w !! c)
    ∧ list_store w' = list_store w ∧ clock w' = clock w.
Proof.
  unfold create_room. intros Hcr.
  destruct (choices_spec env (rng w) alphabet 5) as [Hlen Hall]; [done|].
  destruct (choices env (rng w) alphabet 5) as [code k1]. simpl in *.
  destruct (generate_mcqs env fuel k1 topic count) as [[quiz0 k2]|] eqn:Hgen; [|done].
  simplify_eq.
  assert (get_room
            {| rooms := <[Py.str code:=length (room_store w)]> (rooms w);
               room_store := room_store w ++
                 [{| quiz := quiz0; students := []; current := 0; started := false;
                     ended := false; duration := 30; start_time := None |}];
               list_store := list_store w; clock := clock w; rng := k2 |}
            (Py.str code)
          = Some (length (room_store w),
              {| quiz := quiz0; students := []; current := 0; started := false;
                 ended := false; duration := 30; start_time := None |})) as Hget.
  { unfold get_room. simpl. rewrite lookup_insert_eq. simpl.
    by rewrite lookup_app_r, Nat.sub_diag by lia. }
  exists (Py.str code), quiz0. split_and!; try done.
  - by rewrite len_str.
  - by rewrite chars_str.
  - by eapply generate_mcqs_length.
  - unfold state. by rewrite Hget.
  - intros ρ r Hr. simpl. rewrite lookup_app_l; [done|by eapply lookup_lt_Some].
  - intros c Hc. simpl. by rewrite lookup_insert_ne.
Qed.

(** X20: a successful [join_room] lists the participant exactly once: a
    new name goes to the end of the participant list, a name that is
    already there keeps its place.  The joiner's record is the fresh one
    (an earlier record under that name is replaced); the records of all
    other participants, the index and the flags of the room stay as they
    are. *)
Theorem join_room_effect room name w ρ r :
  get_room w room = Some (ρ, r) →
  ∃ r',
    join_room room name w
    = (Return ROk, set_room ρ r' (set_lists (list_store w ++ [[]]) w))
    ∧ get_room (join_room room name w).2 room = Some (ρ, r')
    ∧ names r' = (if bool_decide (name ∈ names r) then names r
                  else names r ++ [name])
    ∧ dict_get name (students r')
      = Some {| score := 0; answered := false; times := [];
                answers := length (list_store w); q_start := None |}
    ∧ (∀ n, n ≠ name → dict_get n (students r') = dict_get n (students r))
    ∧ quiz r' = quiz r ∧ current r' = current r
    ∧ started r' = started r ∧ ended r' = ended r.
Proof.
  intros Hr. unfold join_room. rewrite Hr.
  pose proof (get_room_Some _ _ _ _ Hr) as [Hc Hρ].
  eexists. split; [done|]. split_and!; try done.
  - unfold get_room. simpl. rewrite Hc. simpl.
    rewrite list_lookup_insert_eq; [done|by eapply lookup_lt_Some].
  - unfold names. simpl. apply dict_set_names.
  - simpl. apply dict_get_set.
  - intros n Hn. simpl. by apply dict_get_set_ne.
Qed.

(** ** Soft errors *)

Lemma get_room_bound w code :
  shape w → is_Some (get_room w code) ↔ is_Some (rooms w !! code).
Proof.
  intros Hw. rewrite <- !not_eq_None_Some. by rewrite get_room_None.
Qed.

(** X15: in a reachable world [join_room], [start_quiz] and [state]
    answer "Invalid room" exactly when the code is not bound in [rooms],
    and [submit] answers "Invalid submission" exactly when the code is
    not bound or the name is not a participant of the room; no handler
    produces any other error result, and a request answered with an
    error result changes nothing. *)
Theorem soft_errors env fuel req w o w' :
  reachable env w →
  handle env fuel req w = Some (o, w') →
  (∀ msg, o = Return (RError msg) →
     w' = w
     ∧ match req with
       | CreateRoom _ _ => False
       | JoinRoom room _ | Start room | State room =>
           msg = "Invalid room" ∧ rooms w !! room = None
       | Submit room name _ =>
           msg = "Invalid submission"
           ∧ (rooms w !! room = None
              ∨ ∃ ρ r, get_room w room = Some (ρ, r) ∧ name ∉ names r)
       end)
  ∧ (match req with
     | CreateRoom _ _ => True
     | JoinRoom room _ | Start room | State room =>
         rooms w !! room = None → o = Return (RError "Invalid room")
     | Submit room name _ =>
         rooms w !! room = None
         ∨ (∃ ρ r, get_room w room = Some (ρ, r) ∧ name ∉ names r) →
         o = Return (RError "Invalid submission")
     end).
Proof.
  intros Hw%reachable_shape Hh.
  destruct req as [topic count|room name|room|room name ans|room]; simpl in Hh.
  - split; [|done]. intros msg ->. unfold create_room in Hh.
    destruct (choices env (rng w) alphabet 5) as [code k1].
    by destruct (generate_mcqs env fuel k1 topic count) as [[quiz0 k2]|].
  - unfold join_room in Hh.
    destruct (get_room w room) as [[ρ r]|] eqn:Hr; simplify_eq.
    + split; [done|]. intros Hnone%(get_room_None _ _ Hw). congruence.
    + apply (get_room_None _ _ Hw) in Hr. split; [|done].
      by intros msg [= <-].
  - unfold start_quiz in Hh.
    destruct (get_room w room) as [[ρ r]|] eqn:Hr; simplify_eq.
    + destruct (stamp env (S (clock w)) (students r)) as [d k]. simplify_eq.
      split; [done|]. intros Hnone%(get_room_None _ _ Hw). congruence.
    + apply (get_room_None _ _ Hw) in Hr. split; [|done].
      by intros msg [= <-].
  - unfold submit in Hh.
    destruct (get_room w room) as [[ρ r]|] eqn:Hr.
    + destruct (dict_get name (students r)) as [s|] eqn:Hs.
      * split.
        { intros msg ->. repeat case_match; simplify_eq. }
        intros [Hnone%(get_room_None _ _ Hw)|(ρ' & r' & Hr' & Hn)]; [congruence|].
        simplify_eq. apply dict_get_None in Hn. unfold names in *. congruence.
      * simplify_eq. split; [|done]. intros msg [= <-]. split_and!; [done..|].
        right. exists ρ, r. split; [done|]. by apply dict_get_None.
    + simplify_eq. apply (get_room_None _ _ Hw) in Hr. split; [|done].
      intros msg [= <-]. auto.
  - unfold state, active_snapshot in Hh.
    destruct (get_room w room) as [[ρ r]|] eqn:Hr; simplify_eq.
    + split.
      { intros msg ->. repeat case_match; simplify_eq. }
      intros Hnone%(get_room_None _ _ Hw). congruence.
    + apply (get_room_None _ _ Hw) in Hr. split; [|done].
      by intros msg [= <-].
Qed.

(** ** The bookkeeping of an expiry *)

Lemma expire_frame env qu dur d h k d' h' k' (a : nat) :
  expire env qu dur d h k = (d', h', k') →
  a ∉ answers <$> d.*2 → h' !! a = h !! a.
Proof.
  revert h k d' h' k'. induction d as [|[n s] d IH]; intros h k d' h' k' Hex Ha.
  { by simplify_eq/=. }
  cbn [expire] in Hex. rewrite !fmap_cons in Ha. simpl in Ha.
  apply not_elem_of_cons in Ha as [Hne Ha].
  destruct (answered s);
    match type of Hex with
    | context [expire env qu dur d ?h1 (S k)] =>
        destruct (expire env qu dur d h1 (S k)) as [[d0 h0] k0] eqn:Hd
    end;
    simplify_eq; rewrite (IH _ _ _ _ _ Hd Ha); [done|].
  by apply append_at_other.
Qed.

Lemma expire_lookup env qu dur d h k d' h' k' name s :
  expire env qu dur d h k = (d', h', k') →
  dict_get name d = Some s →
  ∃ t, dict_get name d' = Some (expired dur t s).
Proof.
  revert h k d' h' k'.
  induction d as [|[n s0] d IH]; intros h k d' h' k' Hex Hget; [done|].
  cbn [expire] in Hex. cbn [dict_get] in Hget.
  destruct (answered s0) eqn:Hans;
    match type of Hex with
    | context [expire env qu dur d ?h1 (S k)] =>
        destruct (expire env qu dur d h1 (S k)) as [[d0 h0] k0] eqn:Hd
    end;
    simplify_eq; cbn [dict_get];
    (destruct (decide (n = name)) as [->|Hne];
     [ simplify_eq; eexists; unfold expired; by rewrite Hans
     | by eapply IH ]).
Qed.

Lemma expire_lists env qu dur d h k d' h' k' name s l :
  expire env qu dur d h k = (d', h', k') →
  NoDup (answers <$> d.*2) →
  dict_get name d = Some s → h !! answers s = Some l →
  h' !! answers s = Some (if answered s then l else l ++ [timeout_record qu]).
Proof.
  revert h k d' h' k'.
  induction d as [|[n s0] d IH]; intros h k d' h' k' Hex Hnd Hget Hl; [done|].
  cbn [expire] in Hex. cbn [dict_get] in Hget.
  rewrite !fmap_cons in Hnd. simpl in Hnd. apply NoDup_cons in Hnd as [Hs0 Hnd].
  destruct (decide (n = name)) as [->|Hne].
  - simplify_eq.
    destruct (answered s) eqn:Hans;
      match type of Hex with
      | context [expire env qu dur d ?h1 (S k)] =>
          destruct (expire env qu dur d h1 (S k)) as [[d0 h0] k0] eqn:Hd
      end;
      simplify_eq; rewrite (expire_frame _ _ _ _ _ _ _ _ _ _ Hd Hs0); [done|].
    by apply append_at_same.
  - assert (answers s0 ≠ answers s) as Hdiff.
    { intros Heq. apply Hs0. rewrite Heq.
      apply list_elem_of_fmap_2. by eapply dict_get_elem. }
    destruct (answered s0);
      match type of Hex with
      | context [expire env qu dur d ?h1 (S k)] =>
          destruct (expire env qu dur d h1 (S k)) as [[d0 h0] k0] eqn:Hd
      end;
      simplify_eq; eapply IH; try done.
    by rewrite append_at_other.
Qed.

Lemma room_sep w ρ r :
  inv w → room_store w !! ρ = Some r → NoDup (answers <$> studs r).
Proof.
  intros [Hnd _] Hρ.
  destruct (all_students_insert _ _ _ Hρ) as (pre & post & Hall & _).
  rewrite Hall in Hnd. by eapply inv_room_sep.
Qed.

Lemma room_aligned w ρ r name s :
  inv w → room_store w !! ρ = Some r → dict_get name (students r) = Some s →
  ∃ l, list_store w !! answers s = Some l ∧ length (times s) = length l.
Proof.
  intros [_ Hal] Hρ Hs. rewrite Forall_forall in Hal. apply Hal.
  apply list_elem_of_bind. exists r. split; [by eapply dict_get_elem|].
  by eapply list_elem_of_lookup_2.
Qed.

(** X16: an inspection that finds the window of the active question
    expired moves the index on by one and settles every participant: one
    who had not answered gets the room's duration appended to the times
    and one record without selection, marked incorrect, appended to the
    answers; one who had answered keeps times and answers as they are;
    for both the score is unchanged and [answered] is cleared. *)
Theorem expiry_bookkeeping env room w ρ r t0 qu name s :
  reachable env w →
  get_room w room = Some (ρ, r) →
  ended r = false → started r = true → start_time r = Some t0 →
  duration r - Py.int (time_time env (clock w) - t0) ≤ 0 →
  quiz r !! current r = Some qu →
  dict_get name (students r) = Some s →
  let w' := (state env room w).2 in
  ∃ l r' s',
    list_store w !! answers s = Some l
    ∧ get_room w' room = Some (ρ, r')
    ∧ current r' = S (current r)
    ∧ dict_get name (students r') = Some s'
    ∧ answered s' = false ∧ score s' = score s ∧ answers s' = answers s
    ∧ times s' = (if answered s then times s else times s ++ [duration r])
    ∧ list_store w' !! answers s
      = Some (if answered s then l
              else l ++ [{| question := q qu; selected := None;
                            correct := answer qu; is_correct := false |}]).
Proof.
  intros Hw%reachable_inv Hr He Hst Ht Hrem Hqu Hs w'.
  pose proof (get_room_Some _ _ _ _ Hr) as [_ Hρ].
  destruct (room_aligned _ _ _ _ _ Hw Hρ Hs) as (l & Hl & _).
  pose proof (room_sep _ _ _ Hw Hρ) as Hnd.
  unfold w', state. rewrite Hr, He, Hst, Ht. cbn [negb].
  rewrite bool_decide_eq_true_2 by done. rewrite Hqu.
  destruct (expire env qu (duration r) (students r) (list_store w)
              (S (clock w))) as [[d h] k] eqn:Hex.
  destruct (expire_lookup _ _ _ _ _ _ _ _ _ _ _ Hex Hs) as (t & Hs').
  pose proof (expire_lists _ _ _ _ _ _ _ _ _ _ _ _ Hex Hnd Hs Hl) as Hl'.
  exists l. case_bool_decide; [|rewrite active_snapshot_world];
    (eexists _, _; split; [done|]; split; [by eapply get_room_set_room|]);
    simpl; split_and!; done.
Qed.

(** ** Scores and answer records *)

Definition correct_count (l : list AnswerRecord) : Z :=
  Z.of_nat (length (filter (λ a, is_correct a = true) l)).

(** The records say what was selected against what was correct, and the
    score counts the records marked correct. *)
Definition tallied (s : Student) (l : list AnswerRecord) : Prop :=
  score s = correct_count l
  ∧ Forall (λ a, is_correct a = bool_decide (selected a = Some (correct a))) l.

Definition linked (h : list (list AnswerRecord)) (s : Student) : Prop :=
  ∃ l, h !! answers s = Some l ∧ tallied s l.

Lemma correct_count_snoc l a :
  correct_count (l ++ [a])
  = correct_count l + (if is_correct a then 1 else 0).
Proof.
  unfold correct_count. rewrite filter_app, length_app.
  rewrite filter_cons, filter_nil.
  destruct (is_correct a) eqn:Ha.
  - rewrite decide_True by done. simpl. lia.
  - rewrite decide_False by done. simpl. lia.
Qed.

Lemma linked_frame_one h h' s :
  h' !! answers s = h !! answers s → linked h s → linked h' s.
Proof. intros Heq (l & Hl & Ht). exists l. by rewrite Heq. Qed.

Lemma linked_frame pre post old new h h' :
  NoDup (answers <$> (pre ++ old ++ post)) →
  Forall (linked h) (pre ++ old ++ post) →
  (∀ a, a ∉ answers <$> old → h' !! a = h !! a) →
  Forall (linked h') new →
  Forall (linked h') (pre ++ new ++ post).
Proof.
  intros Hnd Hal Hframe Hnew.
  rewrite !fmap_app in Hnd.
  apply NoDup_app in Hnd as (_ & Hpre & Hnd).
  apply NoDup_app in Hnd as (_ & Hpost & _).
  rewrite !Forall_app in Hal. destruct Hal as (Hal1 & _ & Hal3).
  rewrite !Forall_app. split_and!; [|done|].
  - rewrite Forall_forall in Hal1 |- *. intros s Hs.
    eapply linked_frame_one; [|by apply Hal1].
    apply Hframe. intros Hin. eapply Hpre; [by apply list_elem_of_fmap_2|].
    apply elem_of_app; by left.
  - rewrite Forall_forall in Hal3 |- *. intros s Hs.
    eapply linked_frame_one; [|by apply Hal3].
    apply Hframe. intros Hin. eapply Hpost; [done|by apply list_elem_of_fmap_2].
Qed.

Lemma expire_linked env qu dur d h k d' h' k' :
  expire env qu dur d h k = (d', h', k') →
  NoDup (answers <$> d.*2) →
  Forall (linked h) d.*2 →
  Forall (linked h') d'.*2.
Proof.
  revert h k d' h' k'.
  induction d as [|[n s] d IH]; intros h k d' h' k' Hex Hnd Hal.
  { simplify_eq/=. constructor. }
  cbn [expire] in Hex. rewrite !fmap_cons in Hnd, Hal. simpl in Hnd, Hal.
  apply NoDup_cons in Hnd as [Hs Hnd].
  apply Forall_cons in Hal as [(l & Hl & Hsc & Hrec) Hal].
  set (h1 := if answered s then h
             else append_at (answers s) (timeout_record qu) h) in *.
  assert (Forall (linked h1) d.*2) as Hal1.
  { rewrite Forall_forall in Hal |- *. intros s0 Hs0.
    eapply linked_frame_one; [|by apply Hal].
    unfold h1. destruct (answered s); [done|].
    apply append_at_other. intros Heq. apply Hs. rewrite Heq.
    by apply list_elem_of_fmap_2. }
  destruct (answered s) eqn:Hans;
    destruct (expire env qu dur d h1 (S k)) as [[d0 h0] k0] eqn:Hd;
    subst h1; rewrite Hd in Hex; simplify_eq;
    pose proof (expire_frame _ _ _ _ _ _ _ _ _ _ Hd Hs) as Hfr;
    rewrite fmap_cons; (constructor; [|by eapply IH]).
  - exists l. simpl. rewrite Hfr. by split.
  - exists (l ++ [timeout_record qu]). simpl. rewrite Hfr.
    split; [by apply append_at_same|]. split; simpl.
    + rewrite correct_count_snoc. simpl. lia.
    + apply Forall_app. split; [done|]. by constructor.
Qed.

Definition tally (w : World) : Prop :=
  Forall (linked (list_store w)) (all_students (room_store w)).

Lemma linked_lt h s : linked h s → (answers s < length h)%nat.
Proof. intros (l & Hl & _). by eapply lookup_lt_Some. Qed.

Lemma join_room_tally room name w : tally w → tally (join_room room name w).2.
Proof.
  unfold tally, join_room. intros Hal.
  destruct (get_room w room) as [[ρ r]|] eqn:Hr; [|done].
  apply get_room_Some in Hr as [_ Hρ]. simpl.
  destruct (all_students_insert _ _ _ Hρ) as (pre & post & Hall & Hall').
  rewrite Hall in Hal. rewrite Hall'. unfold studs in *. simpl.
  assert (∀ l, Forall (linked (list_store w)) l →
               Forall (linked (list_store w ++ [[]])) l) as Hgrow.
  { intros l Hl. eapply Forall_impl; [exact Hl|]. intros s Hs.
    eapply linked_frame_one; [|done]. apply lookup_app_l. by apply linked_lt. }
  rewrite !Forall_app in Hal |- *. destruct Hal as (H1 & H2 & H3).
  split_and!; [by apply Hgrow| |by apply Hgrow].
  apply dict_set_Forall; [by apply Hgrow|].
  exists []. simpl. split; [by rewrite lookup_app_r, Nat.sub_diag by lia|].
  by split.
Qed.

Lemma start_quiz_tally env room w : tally w → tally (start_quiz env room w).2.
Proof.
  unfold tally, start_quiz. intros Hal.
  destruct (get_room w room) as [[ρ r]|] eqn:Hr; [|done].
  apply get_room_Some in Hr as [_ Hρ].
  destruct (stamp env (S (clock w)) (students r)) as [d k] eqn:Hst. simpl.
  destruct (all_students_insert _ _ _ Hρ) as (pre & post & Hall & Hall').
  rewrite Hall in Hal. rewrite Hall'. unfold studs in *. simpl.
  rewrite !Forall_app in Hal |- *. destruct Hal as (H1 & H2 & H3).
  split_and!; [done| |done].
  eapply (each_Forall (λ s s', ∃ t, s' = stamped t s) _ _ _ _
            (stamp_each _ _ _ _ _ Hst)); [|exact H2].
  by intros s s' [t ->] (l & Hl & Ht); exists l.
Qed.

Lemma submit_tally env room name ans w :
  inv w → tally w → tally (submit env room name ans w).2.
Proof.
  unfold tally, submit. intros [Hnd _] Hal.
  destruct (get_room w room) as [[ρ r]|] eqn:Hr; [|done].
  apply get_room_Some in Hr as [_ Hρ].
  destruct (dict_get name (students r)) as [s|] eqn:Hget; [|done].
  destruct (answered s); [done|].
  destruct (quiz r !! current r) as [qu|]; [|done].
  destruct (q_start s) as [t|] eqn:Hq; [|done].
  simpl.
  set (record := {| question := q qu; selected := ans; correct := answer qu;
                    is_correct := bool_decide (ans = Some (answer qu)) |}).
  destruct (all_students_insert _ _ _ Hρ) as (pre & post & Hall & Hall').
  rewrite Hall in Hnd, Hal. rewrite Hall'.
  destruct (dict_get_split _ _ _ Hget) as (d1 & d2 & Hd & Hset).
  pose proof (inv_room_sep _ _ _ Hnd) as Hnd'.
  assert (Forall (linked (list_store w)) (studs r)) as Hal'.
  { rewrite !Forall_app in Hal. tauto. }
  unfold studs in Hnd', Hal'. rewrite Hd in Hnd', Hal'.
  rewrite fmap_app, fmap_cons in Hnd'.
  apply NoDup_app in Hnd' as (_ & Hd1 & [Hd2 _]%NoDup_cons).
  apply Forall_app in Hal' as [Hal1 [(l & Hl & Hsc & Hrec) Hal2]%Forall_cons].
  eapply (linked_frame pre post (studs r)); [done..| |].
  - intros a Ha. apply append_at_other. intros <-. apply Ha.
    unfold studs. rewrite Hd, fmap_app, fmap_cons.
    apply elem_of_app. right. apply list_elem_of_here.
  - unfold studs. simpl. rewrite Hset. apply Forall_app. split.
    + rewrite Forall_forall in Hal1 |- *. intros s0 Hs0.
      eapply linked_frame_one; [|by apply Hal1].
      apply append_at_other. intros Heq.
      eapply Hd1; [by apply list_elem_of_fmap_2|]. rewrite <- Heq.
      apply list_elem_of_here.
    + constructor.
      * exists (l ++ [record]). split; [by apply append_at_same|].
        split; simpl.
        -- rewrite correct_count_snoc. simpl. case_bool_decide; lia.
        -- apply Forall_app. split; [done|]. by constructor.
      * rewrite Forall_forall in Hal2 |- *. intros s0 Hs0.
        eapply linked_frame_one; [|by apply Hal2].
        apply append_at_other. intros Heq. apply Hd2. rewrite Heq.
        by apply list_elem_of_fmap_2.
Qed.

Lemma state_tally env room w : inv w → tally w → tally (state env room w).2.
Proof.
  unfold tally, state. intros [Hnd _] Hal.
  destruct (get_room w room) as [[ρ r]|] eqn:Hr; [|done].
  apply get_room_Some in Hr as [_ Hρ].
  destruct (ended r); [done|].
  destruct (started r); [|done]. simpl.
  destruct (start_time r) as [t0|]; [|done].
  case_bool_decide; [|by rewrite active_snapshot_world].
  destruct (quiz r !! current r) as [qu|]; [|done].
  destruct (expire env qu (duration r) (students r) (list_store w)
              (S (clock w))) as [[d h] k] eqn:Hex.
  destruct (all_students_insert _ _ _ Hρ) as (pre & post & Hall & Hall').
  rewrite Hall in Hnd, Hal.
  assert (Forall (linked h) (pre ++ d.*2 ++ post)) as Hnew.
  { eapply (linked_frame pre post (studs r)); [done..| |].
    - intros a Ha. by eapply expire_frame.
    - eapply expire_linked; [done|by eapply inv_room_sep|].
      rewrite !Forall_app in Hal. tauto. }
  case_bool_decide; [|rewrite active_snapshot_world]; simpl; by rewrite Hall'.
Qed.

Lemma step_tally env w w' : step env w w' → inv w → tally w → tally w'.
Proof.
  intros (fuel & req & o & Hh) Hinv Hw. destruct req; simpl in Hh.
  - unfold create_room in Hh.
    destruct (choices env (rng w) alphabet 5) as [code k1].
    destruct (generate_mcqs env fuel k1 topic count) as [[quiz0 k2]|]; [|done].
    simplify_eq. unfold tally, all_students in *. simpl.
    by rewrite bind_app, bind_cons, !app_nil_r.
  - simplify_eq. replace w' with (join_room room name w).2 by by rewrite Hh.
    by apply join_room_tally.
  - simplify_eq. replace w' with (start_quiz env room w).2 by by rewrite Hh.
    by apply start_quiz_tally.
  - simplify_eq. replace w' with (submit env room name ans w).2 by by rewrite Hh.
    by apply submit_tally.
  - simplify_eq. replace w' with (state env room w).2 by by rewrite Hh.
    by apply state_tally.
Qed.

Lemma reachable_tally env w : reachable env w → inv w ∧ tally w.
Proof.
  intros Hr.
  apply (rtc_ind_r (R := step env) (λ w, inv w ∧ tally w) boot); [| |exact Hr].
  - split; [apply boot_inv|constructor].
  - intros y z _ Hstep [Hi Ht]. split; [by eapply step_inv|by eapply step_tally].
Qed.

(** X17: in every reachable world the score of a participant is the
    number of that participant's answer records marked correct, and a
    record is marked correct exactly when its selected option is the
    correct option of its question (so never for a time-out or an empty
    answer). *)
Theorem score_counts_correct_answers env w ρ r name s :
  reachable env w → room_store w !! ρ = Some r →
  dict_get name (students r) = Some s →
  ∃ l, list_store w !! answers s = Some l
    ∧ score s = Z.of_nat (length (filter (λ a, is_correct a = true) l))
    ∧ ∀ a, a ∈ l → (is_correct a = true ↔ selected a = Some (correct a)).
Proof.
  intros [_ Hal]%reachable_tally Hρ Hs.
  unfold tally in Hal. rewrite Forall_forall in Hal.
  destruct (Hal s) as (l & Hl & Hsc & Hrec).
  { apply list_elem_of_bind. exists r. split; [by eapply dict_get_elem|].
    by eapply list_elem_of_lookup_2. }
  exists l. split_and!; [done..|]. intros a Ha.
  rewrite Forall_forall in Hrec. rewrite (Hrec a Ha).
  by rewrite bool_decide_eq_true.
Qed.

(** ** Starting a room *)

Lemma stamp_clock env k d d' k' :
  stamp env k d = (d', k') → k' = (k + length d)%nat.
Proof.
  revert k d' k'. induction d as [|[n s] d IH]; intros k d' k' Hst.
  { simplify_eq/=. lia. }
  cbn [stamp] in Hst.
  destruct (stamp env (S k) d) as [d0 k0] eqn:Hd. simplify_eq.
  apply IH in Hd. simpl. lia.
Qed.

Lemma stamp_lookup env k d d' k' name s :
  stamp env k d = (d', k') → dict_get name d = Some s →
  ∃ i, (i < length d)%nat
    ∧ dict_get name d' = Some (stamped (time_time env (k + i)) s).
Proof.
  revert k d' k'. induction d as [|[n s0] d IH]; intros k d' k' Hst Hget; [done|].
  cbn [stamp] in Hst. cbn [dict_get] in Hget.
  destruct (stamp env (S k) d) as [d0 k0] eqn:Hd. simplify_eq.
  cbn [dict_get]. destruct (decide (n = name)) as [->|Hne].
  - simplify_eq. exists 0%nat. split; [simpl; lia|]. by rewrite Nat.add_0_r.
  - destruct (IH _ _ _ Hd Hget) as (i & Hi & Hs').
    exists (S i). split; [simpl; lia|].
    by replace (k + S i)%nat with (S k + i)%nat by lia.
Qed.

(** X18: [start_quiz] on an existing room always answers ok, also when
    the room is already started or has ended.  It sets [started], sets
    the start time to the first clock reading of the call and stamps
    every participant's question timer with a later reading of its own;
    the index, the [ended] flag, the quiz, the participant list and
    every score, time, answer list and [answered] flag are left as they
    are: starting again resets the timers, not the progress. *)
Theorem start_quiz_effect env room w ρ r :
  get_room w room = Some (ρ, r) →
  let w' := (start_quiz env room w).2 in
  (start_quiz env room w).1 = Return ROk
  ∧ clock w' = S (clock w + length (students r))
  ∧ list_store w' = list_store w
  ∧ ∃ r',
      get_room w' room = Some (ρ, r')
      ∧ started r' = true
      ∧ start_time r' = Some (time_time env (clock w))
      ∧ current r' = current r ∧ ended r' = ended r ∧ quiz r' = quiz r
      ∧ names r' = names r
      ∧ ∀ name s, dict_get name (students r) = Some s →
          ∃ i, (i < length (students r))%nat
            ∧ dict_get name (students r')
              = Some {| score := score s; answered := answered s;
                        times := times s; answers := answers s;
                        q_start := Some (time_time env (S (clock w) + i)) |}.
Proof.
  intros Hr w'. unfold w', start_quiz. rewrite Hr.
  destruct (stamp env (S (clock w)) (students r)) as [d k] eqn:Hst.
  pose proof (stamp_clock _ _ _ _ _ Hst) as Hk.
  destruct (stamp_spec _ _ _ _ _ Hst) as (Hnames & _ & _).
  simpl. split_and!; [done|lia|done|].
  eexists. split.
  - pose proof (get_room_Some _ _ _ _ Hr) as [Hc Hρ].
    unfold get_room. simpl. rewrite Hc. simpl.
    rewrite list_lookup_insert_eq; [done|by eapply lookup_lt_Some].
  - simpl. split_and!; try done.
    intros name s Hs.
    destruct (stamp_lookup _ _ _ _ _ _ _ Hst Hs) as (i & Hi & Hs').
    exists i. split; [done|]. by rewrite Hs'.
Qed.

(** ** From one question to the next *)

Lemma expire_clock env qu dur d h k d' h' k' :
  expire env qu dur d h k = (d', h', k') → k' = (k + length d)%nat.
Proof.
  revert h k d' h' k'. induction d as [|[n s] d IH]; intros h k d' h' k' Hex.
  { simplify_eq/=. lia. }
  cbn [expire] in Hex.
  destruct (answered s);
    match type of Hex with
    | context [expire env qu dur d ?h1 (S k)] =>
        destruct (expire env qu dur d h1 (S k)) as [[d0 h0] k0] eqn:Hd
    end;
    simplify_eq; apply IH in Hd; simpl; lia.
Qed.

(** X19: an inspection that finds the window of the active question
    expired ends the room exactly when that question was the last one:
    it then returns the ENDED snapshot and leaves the start time alone.
    Otherwise it returns the ACTIVE snapshot of the next question with
    the full duration remaining, and the new window starts at the clock
    reading taken after all participants were settled.  Either way the
    participant list is unchanged and one clock reading per participant
    is consumed besides those for the room. *)
Theorem expiry_transition env room w ρ r t0 qu :
  get_room w room = Some (ρ, r) →
  ended r = false → started r = true → start_time r = Some t0 →
  duration r - Py.int (time_time env (clock w) - t0) ≤ 0 →
  quiz r !! current r = Some qu →
  let result := state env room w in
  let board := sorted (entry <$> students r) in
  let settled := (S (clock w) + length (students r))%nat in
  ∃ r', get_room result.2 room = Some (ρ, r') ∧ names r' = names r
    ∧ if bool_decide (S (current r) = length (quiz r)) then
        result.1 = Return (REnded board)
        ∧ ended r' = true ∧ start_time r' = Some t0
        ∧ clock result.2 = settled
      else
        ∃ qn, quiz r !! S (current r) = Some qn
          ∧ result.1
            = Return (RActive (q qn) (options qn) (duration r)
                        (current r + 2) (length (quiz r)) board)
          ∧ ended r' = false
          ∧ start_time r' = Some (time_time env settled)
          ∧ clock result.2 = S settled.
Proof.
  intros Hr He Hst Ht Hrem Hqu result board settled.
  unfold result, state. rewrite Hr, He, Hst, Ht. cbn [negb].
  rewrite bool_decide_eq_true_2 by done. rewrite Hqu.
  destruct (expire env qu (duration r) (students r) (list_store w)
              (S (clock w))) as [[d h] k] eqn:Hex.
  pose proof (expire_clock _ _ _ _ _ _ _ _ _ Hex) as Hk.
  pose proof (each_names (λ s s', ∃ t, s' = expired (duration r) t s) _ _
                (expire_each _ _ _ _ _ _ _ _ _ Hex)) as Hnames.
  pose proof (lookup_lt_Some _ _ _ Hqu) as Hlt.
  case_bool_decide as Hlast.
  - rewrite bool_decide_eq_true_2 by lia.
    eexists. split; [by eapply get_room_set_room|]. simpl.
    split_and!; done.
  - rewrite bool_decide_eq_false_2 by lia.
    unfold active_snapshot. cbn [quiz current].
    destruct (quiz r !! S (current r)) as [qn|] eqn:Hqn.
    2: { apply lookup_ge_None in Hqn. lia. }
    eexists. split; [by eapply get_room_set_room|]. simpl.
    split; [done|]. exists qn. split_and!; try done.
    + do 2 f_equal. lia.
    + by rewrite Hk.
    + by rewrite Hk.
Qed.

(** ** Snapshots of inspections that do not advance *)

Lemma dict_get_elem_of n s d : NoDup d.*1 → (n, s) ∈ d → dict_get n d = Some s.
Proof.
  induction d as [|[n0 s0] d IH]; [by intros _ ?%elem_of_nil|].
  rewrite fmap_cons. intros [Hn0 Hnd]%NoDup_cons [Heq|Hin]%elem_of_cons.
  - simplify_eq. cbn [dict_get]. by rewrite decide_True.
  - cbn [dict_get]. rewrite decide_False; [by apply IH|].
    intros ->. apply Hn0. simpl. by apply (list_elem_of_fmap_2 fst _ (n, s)).
Qed.

(** X21: in a reachable world, the leaderboard of an inspection that
    does not advance (the room has ended, or the window is still open)
    agrees with the store the call leaves behind: the room and the
    answer lists are unchanged, and every entry carries the score, the
    sum of the times and the answer list of the participant it names. *)
Theorem quiet_snapshot_consistent env room w ρ r resp w' board e :
  reachable env w →
  get_room w room = Some (ρ, r) →
  state env room w = (Return resp, w') →
  leaderboard_of resp = Some board →
  (ended r = true
   ∨ ∃ t0, start_time r = Some t0
       ∧ 0 < duration r - Py.int (time_time env (clock w) - t0)) →
  e ∈ board →
  get_room w' room = Some (ρ, r) ∧ list_store w' = list_store w
  ∧ ∃ s, dict_get (Entry.name e) (students r) = Some s
      ∧ Entry.score e = score s
      ∧ Entry.total_time e = Py.sum (times s)
      ∧ Entry.answers e = answers s.
Proof.
  intros Hw%reachable_shape Hr Hst Hb Hquiet He.
  pose proof (get_room_Some _ _ _ _ Hr) as [_ Hρ].
  pose proof (rok_names _ (shape_room _ _ _ Hw Hρ)) as Hnd.
  destruct (state_board _ _ _ _ _ _ Hst Hb) as (ρ' & r' & Hr' & ->).
  rewrite Hr in Hr'. simplify_eq.
  rewrite sorted_perm in He.
  apply list_elem_of_fmap in He as ([n s] & -> & Hin).
  assert (w' = w ∨ w' = set_clock (S (clock w)) w) as Hw'.
  { replace w' with (state env room w).2 by by rewrite Hst.
    unfold state. rewrite Hr.
    destruct (ended r') eqn:Hended; [by left|].
    destruct Hquiet as [|(t0 & Ht0 & Hrem)]; [done|].
    destruct (started r'); cbn [negb]; [|by left].
    rewrite Ht0. rewrite bool_decide_eq_false_2 by lia.
    right. apply active_snapshot_world. }
  split_and!.
  - by destruct Hw' as [-> | ->].
  - by destruct Hw' as [-> | ->].
  - exists s. split; [|done]. by apply dict_get_elem_of.
Qed.

(** X23: the leaderboard of an inspection ranks the participants by the
    scores and the sums of the times that the call finds when it starts
    (on an expiring call: before the time-outs are appended).  Of two
    participants of the room, the one with the strictly higher score, or
    with the same score and the strictly smaller sum of times, has its
    entry at a smaller index; the entry of a participant carries the
    name, the score, the sum of the times and the answer list of that
    participant. *)
Theorem leaderboard_order env room w ρ r resp w' board na nb sa sb :
  get_room w room = Some (ρ, r) →
  state env room w = (Return resp, w') →
  leaderboard_of resp = Some board →
  dict_get na (students r) = Some sa →
  dict_get nb (students r) = Some sb →
  score sb < score sa
  ∨ (score sa = score sb ∧ Py.sum (times sa) < Py.sum (times sb)) →
  ∃ i j, (i < j)%nat
    ∧ board !! i
      = Some {| Entry.name := na; Entry.score := score sa;
                Entry.total_time := Py.sum (times sa);
                Entry.answers := answers sa |}
    ∧ board !! j
      = Some {| Entry.name := nb; Entry.score := score sb;
                Entry.total_time := Py.sum (times sb);
                Entry.answers := answers sb |}.
Proof.
  intros Hr Hst Hb Ha Hb' Hrank.
  destruct (state_board _ _ _ _ _ _ Hst Hb) as (ρ' & r' & Hr' & ->).
  rewrite Hr in Hr'. simplify_eq.
  assert (∀ n s, dict_get n (students r') = Some s →
            ∃ i, sorted (entry <$> students r') !! i = Some (entry (n, s)))
    as Hfind.
  { intros n s Hs. apply list_elem_of_lookup_1. rewrite sorted_perm.
    apply list_elem_of_fmap_2. by apply dict_get_pair. }
  destruct (Hfind _ _ Ha) as [i Hi]. destruct (Hfind _ _ Hb') as [j Hj].
  exists i, j. split; [|by split].
  eapply ordered_rank; [apply sorted_ordered|done..|].
  apply tuple_lt_spec. unfold key, entry. simpl. lia.
Qed.

(** ** Generating without source text *)

Lemma wiki_text_offline env topic : WIKI env = false → wiki_text env topic = "".
Proof. intros H. unfold wiki_text. by rewrite H. Qed.

(** A loop whose sentences offer no unused concept never adds a
    question. *)
Lemma barren_loop env fuel sentences concepts count quiz used k :
  sentences ≠ [] →
  (∀ s, s ∈ sentences → valid_concepts s used concepts = []) →
  Z.of_nat (length quiz) < count →
  mcq_loop env fuel sentences concepts count quiz used k = None.
Proof.
  intros Hne Hbarren Hlt. revert k.
  induction fuel as [|fuel IH]; intros k; [done|].
  cbn [mcq_loop]. rewrite bool_decide_eq_true_2 by done.
  pose proof (choice_elem env k sentences Hne) as Hs.
  destruct (choice env k sentences) as [s k1]. simpl in Hs.
  by rewrite (Hbarren s Hs).
Qed.

(** X22: without source text (the wikipedia package is missing) the
    generator has only its five fallback concepts and its four fallback
    sentences about the topic: a request for more than five questions
    never comes back, and neither does a request for at least one
    question when no fallback sentence contains a fallback concept. *)
Theorem offline_generation_limits env fuel k topic count :
  WIKI env = false →
  (5 < count → generate_mcqs env fuel k topic count = None)
  ∧ (0 < count →
     (∀ s c, s ∈ fallback_sentences topic → c ∈ fallback_concepts →
             Py.contains c s = false) →
     generate_mcqs env fuel k topic count = None).
Proof.
  intros Hoff. unfold generate_mcqs.
  rewrite (wiki_text_offline _ _ Hoff), clean_empty.
  change (sentences_of topic "") with (fallback_sentences topic).
  change (concepts_of "") with fallback_concepts.
  split.
  - intros Hc. apply mcq_loop_starves; [|simpl; lia|apply empty_subseteq|simpl; lia].
    by apply (bool_decide_unpack (NoDup fallback_concepts)).
  - intros Hc Hno. apply barren_loop; [done| |simpl; lia].
    intros s Hs.
    destruct (valid_concepts s ∅ fallback_concepts) as [|c rest] eqn:Hvalid; [done|].
    assert (c ∈ valid_concepts s ∅ fallback_concepts) as Hin
      by (rewrite Hvalid; apply list_elem_of_here).
    apply list_elem_of_filter in Hin as [[Hcont _] Hconc].
    by rewrite (Hno s c Hs Hconc) in Hcont.
Qed.

(** ** The further properties at work on concrete sessions *)

Definition no_room : Room :=
  {| quiz := []; students := []; current := 0; started := false;
     ended := false; duration := 30; start_time := None |}.

(** The first room object of a world, and a participant of a room. *)
Definition first_room (w : World) : Room := default no_room (room_store w !! 0%nat).

Definition participant (name : string) (r : Room) : Student :=
  default {| score := 0; answered := false; times := []; answers := 0;
             q_start := None |} (dict_get name (students r)).

Definition response_of (result : Outcome * World) : Response :=
  match result.1 with
  | Return resp => resp
  | Raise _ => ROk
  end.

Definition data_quiz : list Question :=
  [ {| q := "_____ is an important concept in computer science?";
       options := ["System"; "Data"; "Process"; "Model"];
       answer := "Data" |} ].

Lemma generate_mcqs_quiz_witness :
  length data_quiz = Z.to_nat 1
  ∧ NoDup (answer <$> data_quiz)
  ∧ Forall (λ qu,
      length (options qu) = 4%nat
      ∧ NoDup (options qu)
      ∧ answer qu ∈ options qu
      ∧ options qu ⊆ concepts_of (clean (wiki_text (offline 1) "Data"))
      ∧ ∃ s, s ∈ sentences_of "Data" (clean (wiki_text (offline 1) "Data"))
             ∧ Py.contains (answer qu) s = true
             ∧ q qu = Py.replace s (answer qu) "_____" +:+ "?") data_quiz.
Proof.
  apply (generate_mcqs_quiz (offline 1) 10 0 "Data" 1 data_quiz 7).
  by vm_compute.
Defined.

Lemma more_than_40_questions_hang_witness :
  create_room (offline 1) 3 "Data" 41 boot = None
  ∧ practice (offline 1) 3 "Data" 41 boot = None.
Proof. apply (more_than_40_questions_hang (offline 1) 3 "Data" 41 boot). lia. Defined.

Definition finished : list Request :=
  lobby ++ [Start "ABCDE"; State "ABCDE"].

Lemma room_progress_bounds_witness :
  let r := first_room (world_after (offline 30) finished) in
  (current r ≤ length (quiz r))%nat
  ∧ (ended r = true ↔ quiz r ≠ [] ∧ current r = length (quiz r))
  ∧ (ended r = true → started r = true)
  ∧ duration r = 30.
Proof.
  intros r.
  apply (room_progress_bounds (offline 30) (world_after (offline 30) finished) 0 r).
  - eapply (run_steps (offline 30) 10 finished boot). by vm_compute.
  - by vm_compute.
Defined.

Lemma student_record_bounds_witness :
  let r := first_room (world_after (offline 1) round_one) in
  let s := participant "B" r in
  (length (times s) ≤ current r + (if answered s then 1 else 0))%nat
  ∧ (length (times s) ≤ length (quiz r))%nat
  ∧ 0 ≤ score s ≤ Z.of_nat (length (times s)).
Proof.
  intros r s.
  apply (student_record_bounds (offline 1) (world_after (offline 1) round_one)
           0 r "B" s).
  - eapply (run_steps (offline 1) 10 round_one boot). by vm_compute.
  - by vm_compute.
  - by vm_compute.
Defined.

Lemma nothing_recorded_before_start_witness :
  let r := first_room (world_after (offline 1) lobby) in
  current r = 0%nat ∧ ended r = false ∧ start_time r = None
  ∧ Forall pristine (studs r).
Proof.
  intros r.
  apply (nothing_recorded_before_start (offline 1) (world_after (offline 1) lobby) 0 r).
  - eapply (run_steps (offline 1) 10 lobby boot). by vm_compute.
  - by vm_compute.
  - by vm_compute.
Defined.

Lemma participants_listed_once_witness :
  let env := offline 1 in
  let w := world_after env round_one in
  let r := first_room w in
  let resp := response_of (state env "ABCDE" w) in
  NoDup (names r)
  ∧ (∀ board, leaderboard_of resp = Some board →
       Entry.name <$> board ≡ₚ names r ∧ NoDup (Entry.name <$> board))
  ∧ (∀ listed, resp = RWaiting listed → listed = names r).
Proof.
  intros env w r resp.
  apply (participants_listed_once env "ABCDE" w 0 r resp (state env "ABCDE" w).2).
  - eapply (run_steps env 10 round_one boot). by vm_compute.
  - by vm_compute.
  - by vm_compute.
Defined.

Definition empty_started : list Request :=
  [CreateRoom "Python" 0; JoinRoom "ABCDE" "A"; Start "ABCDE"].

Lemma state_raises_iff_empty_quiz_witness :
  let env := offline 1 in
  let w := world_after env empty_started in
  (state env "ABCDE" w).1 = Raise IndexError ↔
  IndexError = IndexError
  ∧ ∃ ρ r, get_room w "ABCDE" = Some (ρ, r) ∧ started r = true ∧ quiz r = [].
Proof.
  intros env w.
  apply (state_raises_iff_empty_quiz env "ABCDE" w IndexError).
  eapply (run_steps env 10 empty_started boot). by vm_compute.
Defined.

Lemma submit_needs_active_room_witness :
  let env := offline 1 in
  let w := world_after env lobby in
  let r := first_room w in
  let result := submit env "ABCDE" "A" (Some "Data") w in
  (started r = false → ∃ e, result.1 = Raise e)
  ∧ (ended r = true → result = (Raise IndexError, w))
  ∧ (result.1 = Return ROk →
     started r = true ∧ ended r = false ∧ (current r < length (quiz r))%nat).
Proof.
  intros env w r result.
  apply (submit_needs_active_room env "ABCDE" "A" (Some "Data") w 0 r
           (participant "A" r)).
  - eapply (run_steps env 10 lobby boot). by vm_compute.
  - by vm_compute.
  - by vm_compute.
Defined.

Lemma active_snapshot_fields_witness :
  let env := offline 1 in
  let w' := (state env "ABCDE" (world_after env round_one)).2 in
  0 < 25 ∧ (1 ≤ 1 ≤ 1)%nat
  ∧ ∃ ρ r' qu,
      get_room w' "ABCDE" = Some (ρ, r')
      ∧ started r' = true ∧ ended r' = false
      ∧ 1%nat = S (current r') ∧ 1%nat = length (quiz r')
      ∧ quiz r' !! current r' = Some qu
      ∧ "_____ is widely used in modern systems?" = q qu
      ∧ ["System"; "Algorithm"; "Data"; "Model"] = options qu.
Proof.
  intros env w'.
  apply (active_snapshot_fields env "ABCDE" (world_after env round_one)
           "_____ is widely used in modern systems?"
           ["System"; "Algorithm"; "Data"; "Model"] 25 1 1 round_one_board w').
  - eapply (run_steps env 10 round_one boot). by vm_compute.
  - by vm_compute.
Defined.

Definition started_lobby : list Request := lobby ++ [Start "ABCDE"].

Lemma one_request_one_advance_witness :
  let env := offline 30 in
  let w := world_after env started_lobby in
  let r := first_room w in
  ∃ r', room_store (state env "ABCDE" w).2 !! 0%nat = Some r'
    ∧ quiz r' = quiz r ∧ duration r' = duration r
    ∧ (started r = true → started r' = true)
    ∧ (current r' = current r
       ∨ (current r' = S (current r) ∧ is_state (State "ABCDE")
          ∧ started r = true ∧ ended r = false)).
Proof.
  intros env w r.
  apply (one_request_one_advance env 10 (State "ABCDE") w
           (state env "ABCDE" w).1 (state env "ABCDE" w).2 0 r).
  - by vm_compute.
  - by vm_compute.
Defined.

Lemma create_room_fresh_witness :
  let env := offline 1 in
  let w' := world_after env [CreateRoom "Data" 1] in
  ∃ code quiz0,
    Return (RRoom "ABCDE") = Return (RRoom code)
    ∧ Py.len code = 5%nat
    ∧ Forall (λ a, a ∈ alphabet) (Py.chars code)
    ∧ get_room w' code
      = Some (length (room_store boot),
              {| quiz := quiz0; students := []; current := 0; started := false;
                 ended := false; duration := 30; start_time := None |})
    ∧ length quiz0 = Z.to_nat 1
    ∧ state env code w' = (Return (RWaiting []), w')
    ∧ (∀ ρ r, room_store boot !! ρ = Some r → room_store w' !! ρ = Some r)
    ∧ (∀ c, c ≠ code → rooms w' !! c = rooms boot !! c)
    ∧ list_store w' = list_store boot ∧ clock w' = clock boot.
Proof.
  intros env w'.
  apply (create_room_fresh env 10 "Data" 1 boot (Return (RRoom "ABCDE")) w').
  by vm_compute.
Defined.

Lemma join_room_effect_witness :
  let w := world_after (offline 1) lobby in
  let r := first_room w in
  ∃ r',
    join_room "ABCDE" "A" w
    = (Return ROk, set_room 0 r' (set_lists (list_store w ++ [[]]) w))
    ∧ get_room (join_room "ABCDE" "A" w).2 "ABCDE" = Some (0%nat, r')
    ∧ names r' = (if bool_decide ("A" ∈ names r) then names r
                  else names r ++ ["A"])
    ∧ dict_get "A" (students r')
      = Some {| score := 0; answered := false; times := [];
                answers := length (list_store w); q_start := None |}
    ∧ (∀ n, n ≠ "A" → dict_get n (students r') = dict_get n (students r))
    ∧ quiz r' = quiz r ∧ current r' = current r
    ∧ started r' = started r ∧ ended r' = ended r.
Proof.
  intros w r. apply (join_room_effect "ABCDE" "A" w 0 r). by vm_compute.
Defined.

Lemma soft_errors_witness :
  let env := offline 1 in
  let w := world_after env lobby in
  (∀ msg, Return (RError "Invalid room") = Return (RError msg) →
     w = w ∧ msg = "Invalid room" ∧ rooms w !! "QQQQQ" = None)
  ∧ (rooms w !! "QQQQQ" = None →
     Return (RError "Invalid room") = Return (RError "Invalid room")).
Proof.
  intros env w.
  apply (soft_errors env 10 (State "QQQQQ") w (Return (RError "Invalid room")) w).
  - eapply (run_steps env 10 lobby boot). by vm_compute.
  - by vm_compute.
Defined.

Lemma expiry_bookkeeping_witness :
  let env := offline 30 in
  let w := world_after env started_lobby in
  let r := first_room w in
  let s := participant "A" r in
  let w' := (state env "ABCDE" w).2 in
  ∃ l r' s',
    list_store w !! answers s = Some l
    ∧ get_room w' "ABCDE" = Some (0%nat, r')
    ∧ current r' = S (current r)
    ∧ dict_get "A" (students r') = Some s'
    ∧ answered s' = false ∧ score s' = score s ∧ answers s' = answers s
    ∧ times s' = (if answered s then times s else times s ++ [duration r])
    ∧ list_store w' !! answers s
      = Some (if answered s then l
              else l ++ [{| question := "_____ is widely used in modern systems?";
                            selected := None; correct := "Data";
                            is_correct := false |}]).
Proof.
  intros env w r s w'.
  apply (expiry_bookkeeping env "ABCDE" w 0 r (inject_Z 0)
           {| q := "_____ is widely used in modern systems?";
              options := ["System"; "Algorithm"; "Data"; "Model"];
              answer := "Data" |} "A" s).
  - eapply (run_steps env 10 started_lobby boot). by vm_compute.
  - by vm_compute.
  - by vm_compute.
  - by vm_compute.
  - by vm_compute.
  - by vm_compute.
  - by vm_compute.
  - by vm_compute.
Defined.

Lemma score_counts_correct_answers_witness :
  let w := world_after (offline 1) round_one in
  let s := participant "B" (first_room w) in
  ∃ l, list_store w !! answers s = Some l
    ∧ score s = Z.of_nat (length (filter (λ a, is_correct a = true) l))
    ∧ ∀ a, a ∈ l → (is_correct a = true ↔ selected a = Some (correct a)).
Proof.
  intros w s.
  apply (score_counts_correct_answers (offline 1) w 0 (first_room w) "B" s).
  - eapply (run_steps (offline 1) 10 round_one boot). by vm_compute.
  - by vm_compute.
  - by vm_compute.
Defined.

Lemma start_quiz_effect_witness :
  let env := offline 1 in
  let w := world_after env lobby in
  let r := first_room w in
  let w' := (start_quiz env "ABCDE" w).2 in
  (start_quiz env "ABCDE" w).1 = Return ROk
  ∧ clock w' = S (clock w + length (students r))
  ∧ list_store w' = list_store w
  ∧ ∃ r',
      get_room w' "ABCDE" = Some (0%nat, r')
      ∧ started r' = true
      ∧ start_time r' = Some (time_time env (clock w))
      ∧ current r' = current r ∧ ended r' = ended r ∧ quiz r' = quiz r
      ∧ names r' = names r
      ∧ ∀ name s, dict_get name (students r) = Some s →
          ∃ i, (i < length (students r))%nat
            ∧ dict_get name (students r')
              = Some {| score := score s; answered := answered s;
                        times := times s; answers := answers s;
                        q_start := Some (time_time env (S (clock w) + i)) |}.
Proof.
  intros env w r w'. apply (start_quiz_effect env "ABCDE" w 0 r). by vm_compute.
Defined.

Lemma expiry_transition_witness :
  let env := offline 30 in
  let w := world_after env started_lobby in
  let r := first_room w in
  let result := state env "ABCDE" w in
  let board := sorted (entry <$> students r) in
  let settled := (S (clock w) + length (students r))%nat in
  ∃ r', get_room result.2 "ABCDE" = Some (0%nat, r') ∧ names r' = names r
    ∧ if bool_decide (S (current r) = length (quiz r)) then
        result.1 = Return (REnded board)
        ∧ ended r' = true ∧ start_time r' = Some (inject_Z 0)
        ∧ clock result.2 = settled
      else
        ∃ qn, quiz r !! S (current r) = Some qn
          ∧ result.1
            = Return (RActive (q qn) (options qn) (duration r)
                        (current r + 2) (length (quiz r)) board)
          ∧ ended r' = false
          ∧ start_time r' = Some (time_time env settled)
          ∧ clock result.2 = S settled.
Proof.
  intros env w r.
  apply (expiry_transition env "ABCDE" w 0 r (inject_Z 0)
           {| q := "_____ is widely used in modern systems?";
              options := ["System"; "Algorithm"; "Data"; "Model"];
              answer := "Data" |}); by vm_compute.
Defined.

Lemma quiet_snapshot_consistent_witness :
  let env := offline 1 in
  let w := world_after env round_one in
  let r := first_room w in
  let e := {| Entry.name := "B"; Entry.score := 1; Entry.total_time := 1;
              Entry.answers := 1%nat |} in
  get_room (state env "ABCDE" w).2 "ABCDE" = Some (0%nat, r)
  ∧ list_store (state env "ABCDE" w).2 = list_store w
  ∧ ∃ s, dict_get (Entry.name e) (students r) = Some s
      ∧ Entry.score e = score s
      ∧ Entry.total_time e = Py.sum (times s)
      ∧ Entry.answers e = answers s.
Proof.
  intros env w r e.
  apply (quiet_snapshot_consistent env "ABCDE" w 0 r
           (response_of (state env "ABCDE" w)) (state env "ABCDE" w).2
           round_one_board e).
  - eapply (run_steps env 10 round_one boot). by vm_compute.
  - by vm_compute.
  - by vm_compute.
  - by vm_compute.
  - right. exists (inject_Z 0). by vm_compute.
  - apply list_elem_of_here.
Defined.

Lemma offline_generation_limits_witness :
  generate_mcqs (offline 1) 8 0 "Python" 1 = None.
Proof.
  apply (proj2 (offline_generation_limits (offline 1) 8 0 "Python" 1 eq_refl));
    [lia|].
  intros s c Hs Hc. unfold fallback_sentences, fallback_concepts in Hs, Hc.
  repeat (apply elem_of_cons in Hs as [->|Hs]); [..|by apply elem_of_nil in Hs];
    (repeat (apply elem_of_cons in Hc as [->|Hc]);
     [..|by apply elem_of_nil in Hc]; by vm_compute).
Defined.

Definition second_round_board : list Entry.t :=
  [ {| Entry.name := "B"; Entry.score := 0; Entry.total_time := 5;
       Entry.answers := 1%nat |};
    {| Entry.name := "A"; Entry.score := 0; Entry.total_time := 30;
       Entry.answers := 0%nat |} ].

Lemma leaderboard_order_witness :
  ∃ i j, (i < j)%nat
    ∧ second_round_board !! i
      = Some {| Entry.name := "B"; Entry.score := 0; Entry.total_time := 5;
                Entry.answers := 1%nat |}
    ∧ second_round_board !! j
      = Some {| Entry.name := "A"; Entry.score := 0; Entry.total_time := 30;
                Entry.answers := 0%nat |}.
Proof.
  pose (env := offline 5). pose (w := world_after env second_round).
  pose (sa := {| score := 0; answered := true; times := [15; 15];
                 answers := 0%nat; q_start := Some (inject_Z 35) |}).
  pose (sb := {| score := 0; answered := false; times := [5];
                 answers := 1%nat; q_start := Some (inject_Z 40) |}).
  apply (leaderboard_order env "ABCDE" w 0
           {| quiz :=
                [ {| q := "Data _____ is widely used in modern systems?";
                     options := ["Data"; "Algorithm"; "Model"; "System"];
                     answer := "Model" |};
                  {| q := "_____ Model is an important concept in computer science?";
                     options := ["System"; "Data"; "Process"; "Model"];
                     answer := "Data" |} ];
              students := [("A", sa); ("B", sb)];
              current := 1; started := true; ended := false; duration := 30;
              start_time := Some (inject_Z 45) |}
           (RActive "_____ Model is an important concept in computer science?"
              ["System"; "Data"; "Process"; "Model"] 20 2 2 second_round_board)
           (state env "ABCDE" w).2 second_round_board "B" "A" sb sa).
  - by vm_compute.
  - by vm_compute.
  - reflexivity.
  - reflexivity.
  - reflexivity.
  - right. split; [reflexivity|]. by vm_compute.
Defined.
